(** * The GIF picker panel of Signal Desktop ([ts/components/fun/panels/FunPanelGifs.tsx])

    A shallow embedding of the panel's logic: the debounced query, the page
    loader, the two blob caches, the range extractor, the prefetch effect, the
    per-item download and the roving tab stop.  Part I holds the model, Part II
    the properties proved about it. *)

From Stdlib Require Import ZArith NArith Lia List Ascii String Bool Sorted.
From stdpp Require Import base decidable option list gmap strings pretty.

Local Open Scope string_scope.
Local Open Scope list_scope.
Local Open Scope Z_scope.

(* ===================================================================== *)
(** * Part I: the model                                                   *)
(* ===================================================================== *)

(** ** Sections of the panel ([../constants]) *)

(** Modelled from the spec: the declarations of [FunSectionCommon] and
    [FunGifsCategory] live in [../constants], outside the sources at hand.  The
    members are those the panel names.  A section is a plain string at run time
    and [handleSelectSection] casts whatever key the list box reports
    ([key as FunGifsCategory]), so a value of no member can reach the loader:
    [Unlisted] stands for it. *)
Inductive FunGifsSection : Type :=
| SearchResults
| Recents
| Trending
| Celebrate
| Love
| ThumbsUp
| Surprised
| Excited
| Sad
| Angry
| Unlisted (raw : string).

#[global] Instance FunGifsSection_eq_dec : EqDecision FunGifsSection.
Proof. solve_decision. Defined.

(** ** Data of the panel *)

(** JS objects have an identity besides their fields; the weak map of the panel
    keys on it.  [Obj A] is an object holding an [A]: [addr] is the identity. *)
Record Obj (A : Type) : Type := mkObj { addr : positive; val : A }.
Arguments mkObj {A} _ _.
Arguments addr {A} _.
Arguments val {A} _.

Module GifMediaType.
Record t : Type := make { url : string; width : Z; height : Z }.
End GifMediaType.

Module GifType.
Record t : Type := make {
  id : string;
  title : string;
  description : string;
  previewMedia : Obj GifMediaType.t;
  attachmentMedia : Obj GifMediaType.t;
}.
End GifType.

Record GifsQuery : Type := mkQuery {
  selectedSection : FunGifsSection;
  searchQuery : string;
}.

#[global] Instance GifsQuery_eq_dec : EqDecision GifsQuery.
Proof. solve_decision. Defined.

(** [GifsPaginated] of [../data/gifs]: a page and the cursor of the next one. *)
Record GifsPaginated : Type := mkPage {
  next : option string;
  gifs : list GifType.t;
}.

(** An [AbortSignal] is only handed on; its identity is all the model keeps. *)
Definition AbortSignal : Type := positive.

(** ** The loader (lines 190-237) *)

(** What one call of [loader] does: it hands the request to one of the two
    fetchers of the context, resolves on the spot, or throws. *)
Inductive LoaderOutcome : Type :=
| CallFetchGifsSearch (query : string) (limit : Z) (cursor : option string) (signal : AbortSignal)
| CallFetchGifsFeatured (limit : Z) (cursor : option string) (signal : AbortSignal)
| Resolved (page : GifsPaginated)
| ThrowAssertion (message : string)
| ThrowMissingCase (section : FunGifsSection).

(** [previousPage?.next ?? null] *)
Definition cursorOf (previousPage : option GifsPaginated) : option string :=
  previousPage ≫= next.

(** [cursor != null ? 30 : 10] *)
Definition limitOf (cursor : option string) : Z :=
  match cursor with Some _ => 30 | None => 10 end.

Definition loader (recentGifs : list GifType.t)
    (query : GifsQuery) (previousPage : option GifsPaginated) (signal : AbortSignal)
    : LoaderOutcome :=
  let cursor := cursorOf previousPage in
  let limit := limitOf cursor in
  if negb (String.eqb (searchQuery query) "") then
    CallFetchGifsSearch (searchQuery query) limit cursor signal
  else if bool_decide (selectedSection query = SearchResults) then
    ThrowAssertion "Section is search results when not searching"
  else if bool_decide (selectedSection query = Recents) then
    Resolved {| next := None; gifs := recentGifs |}
  else if bool_decide (selectedSection query = Trending) then
    CallFetchGifsFeatured limit cursor signal
  else if bool_decide (selectedSection query = Celebrate) then
    CallFetchGifsSearch "celebrate" limit cursor signal
  else if bool_decide (selectedSection query = Love) then
    CallFetchGifsSearch "love" limit cursor signal
  else if bool_decide (selectedSection query = ThumbsUp) then
    CallFetchGifsSearch "thumbs-up" limit cursor signal
  else if bool_decide (selectedSection query = Surprised) then
    CallFetchGifsSearch "surprised" limit cursor signal
  else if bool_decide (selectedSection query = Excited) then
    CallFetchGifsSearch "excited" limit cursor signal
  else if bool_decide (selectedSection query = Sad) then
    CallFetchGifsSearch "sad" limit cursor signal
  else if bool_decide (selectedSection query = Angry) then
    CallFetchGifsSearch "angry" limit cursor signal
  else
    ThrowMissingCase (selectedSection query).

(** [hasNextPage] (lines 239-244): [previousPage?.next != null] *)
Definition hasNextPage (_query : GifsQuery) (previousPage : option GifsPaginated) : bool :=
  bool_decide (is_Some (cursorOf previousPage)).

(** The limit a loader call asks of the network, when it asks at all. *)
Definition requestedLimit (o : LoaderOutcome) : option Z :=
  match o with
  | CallFetchGifsSearch _ limit _ _ => Some limit
  | CallFetchGifsFeatured limit _ _ => Some limit
  | _ => None
  end.

(** The outcome is a throw. *)
Definition throws (o : LoaderOutcome) : bool :=
  match o with
  | ThrowAssertion _ | ThrowMissingCase _ => true
  | _ => false
  end.

(** The seven mood categories and the search term of each; [None] for every
    other section. *)
Definition moodTerm (s : FunGifsSection) : option string :=
  match s with
  | Celebrate => Some "celebrate"
  | Love => Some "love"
  | ThumbsUp => Some "thumbs-up"
  | Surprised => Some "surprised"
  | Excited => Some "excited"
  | Sad => Some "sad"
  | Angry => Some "angry"
  | _ => None
  end.

(** ** Binary data *)

(** The bytes a download yields.  The panel never looks at them: it wraps them
    in a [Blob] and reads the blob's [size].  [byteLength] is the length and
    [payload] stands for the contents. *)
Record Uint8Array : Type := mkBytes { byteLength : N; payload : N }.

(** A DOM [Blob], built from its parts as in [new Blob([bytes])]. *)
Record Blob : Type := mkBlob { blobParts : list Uint8Array }.

(** [blob.size]: the byte lengths of the parts, added up. *)
Definition size (blob : Blob) : N :=
  foldr (λ part acc, (byteLength part + acc)%N) 0%N (blobParts blob).

(** A thrown value; what makes one an abort error is [../../../util/isAbortError]'s
    business and is taken as a parameter further down. *)
Record Error : Type := mkError { name : string; message : string }.

(** ** The byte-bounded cache ([lru-cache]) *)

Module LRUCache.
Section WithValue.
Context {V : Type}.

(** The two options the panel sets. *)
Record Options : Type := mkOptions {
  maxSize : N;
  sizeCalculation : V → N;
}.

(** Modelled from the spec: [LRUCache] comes from the package [lru-cache],
    which is not among the sources.  The durable tier is, in the spec's words,
    bounded by the total byte cost of its entries; eviction is strict
    least-recently-used by access order; the cost of an insertion is what
    [sizeCalculation] gives; an insertion that would exceed the bound evicts the
    oldest entries until it fits, or is rejected if the entry alone exceeds the
    bound.  [entries] are kept in access order, least recently used first. *)
Record t : Type := mkCache {
  options : Options;
  entries : list (string * V);
}.

Definition create (o : Options) : t := {| options := o; entries := [] |}.

Definition cost (o : Options) (e : string * V) : N := sizeCalculation o e.2.

(** Total byte cost of a list of entries. *)
Fixpoint total (o : Options) (l : list (string * V)) : N :=
  match l with
  | [] => 0%N
  | e :: rest => (cost o e + total o rest)%N
  end.

Definition calculatedSize (c : t) : N := total (options c) (entries c).

(** The value stored under a key, reading only. *)
Fixpoint lookup (k : string) (l : list (string * V)) : option V :=
  match l with
  | [] => None
  | (k', v) :: rest => if String.eqb k' k then Some v else lookup k rest
  end.

Definition peek (k : string) (c : t) : option V := lookup k (entries c).

(** The entries under every other key, in order. *)
Fixpoint remove (k : string) (l : list (string * V)) : list (string * V) :=
  match l with
  | [] => []
  | (k', v) :: rest => if String.eqb k' k then remove k rest else (k', v) :: remove k rest
  end.

(** Drop the oldest entries, one at a time, until what is left costs at most
    [budget]. *)
Fixpoint evict (o : Options) (budget : N) (l : list (string * V)) : list (string * V) :=
  match l with
  | [] => []
  | e :: rest => if (total o l <=? budget)%N then l else evict o budget rest
  end.

(** A read: a hit makes the entry the most recently used one. *)
Definition get (k : string) (c : t) : option V * t :=
  match lookup k (entries c) with
  | Some v => (Some v, {| options := options c; entries := remove k (entries c) ++ [(k, v)] |})
  | None => (None, c)
  end.

(** An insertion: rejected when the entry alone is over the bound; otherwise the
    oldest entries go until the new one fits, and the new one becomes the most
    recently used. *)
Definition store (k : string) (v : V) (c : t) : t :=
  let o := options c in
  let sz := sizeCalculation o v in
  if (maxSize o <? sz)%N then c
  else {| options := o;
          entries := evict o (maxSize o - sz)%N (remove k (entries c)) ++ [(k, v)] |}.

(** What [set] throws for a size it does not accept. *)
Definition invalidSize : Error :=
  {| name := "TypeError";
     message := "sizeCalculation return invalid (expect positive integer)" |}.

(** [cache.set(k, v)].  The spec has no word on sizes that are not positive;
    the package has: the first thing [set] does is to ask [sizeCalculation] for
    the size, and it throws a [TypeError] unless that is a positive integer.
    This is before it touches the cache, so a throw ([inr]) leaves the cache as
    it was.  A byte length is a natural number, so zero is the one size that is
    refused. *)
Definition set (k : string) (v : V) (c : t) : t + Error :=
  if (sizeCalculation (options c) v =? 0)%N then inr invalidSize
  else inl (store k v c).

End WithValue.
Arguments Options : clear implicits.
Arguments t : clear implicits.
End LRUCache.

(** ** The two caches of the panel (lines 61-79) *)

Definition MAX_CACHE_SIZE : N := (50 * 1024 * 1024)%N.

(** [{ maxSize: MAX_CACHE_SIZE, sizeCalculation: blob => blob.size }] *)
Definition cacheOptions : LRUCache.Options Blob :=
  {| LRUCache.maxSize := MAX_CACHE_SIZE; LRUCache.sizeCalculation := size |}.

(** The module-level state: the byte-bounded cache keyed by url, and the weak
    map keyed by the media object itself.  A weak map holds an entry for as long
    as its key object is alive; the model keys it by the object's identity. *)
Record Caches : Type := mkCaches {
  FunGifBlobCache : LRUCache.t Blob;
  FunGifBlobLiveCache : gmap positive Blob;
}.

Definition initialCaches : Caches :=
  {| FunGifBlobCache := LRUCache.create cacheOptions; FunGifBlobLiveCache := ∅ |}.

(** [FunGifBlobLiveCache.get(gifMedia) ?? FunGifBlobCache.get(gifMedia.url) ?? null];
    the second lookup only runs when the first one misses, and it touches the
    recency order of the bounded cache. *)
Definition readGifMediaFromCache (gifMedia : Obj GifMediaType.t) (c : Caches)
    : option Blob * Caches :=
  match FunGifBlobLiveCache c !! addr gifMedia with
  | Some blob => (Some blob, c)
  | None =>
      let r := LRUCache.get (GifMediaType.url (val gifMedia)) (FunGifBlobCache c) in
      (r.1, {| FunGifBlobCache := r.2; FunGifBlobLiveCache := FunGifBlobLiveCache c |})
  end.

(** [saveGifMediaToCache]: the byte-bounded cache is written first (line 77);
    when that throws, the weak map (line 78) is not reached and the throw goes
    to the caller ([inr]). *)
Definition saveGifMediaToCache (gifMedia : Obj GifMediaType.t) (blob : Blob) (c : Caches)
    : Caches + Error :=
  match LRUCache.set (GifMediaType.url (val gifMedia)) blob (FunGifBlobCache c) with
  | inr error => inr error
  | inl bounded =>
      inl {| FunGifBlobCache := bounded;
             FunGifBlobLiveCache := <[addr gifMedia := blob]> (FunGifBlobLiveCache c) |}
  end.

(** The media object is reclaimed: its weak-map entry goes with it. *)
Definition collect (a : positive) (c : Caches) : Caches :=
  {| FunGifBlobCache := FunGifBlobCache c;
     FunGifBlobLiveCache := delete a (FunGifBlobLiveCache c) |}.

(** What can happen to the caches, and a run of such steps.  A save that
    throws has changed neither cache. *)
Inductive CacheOp : Type :=
| Save (gifMedia : Obj GifMediaType.t) (blob : Blob)
| Read (gifMedia : Obj GifMediaType.t)
| Collect (a : positive).

Definition cacheStep (c : Caches) (op : CacheOp) : Caches :=
  match op with
  | Save gifMedia blob =>
      match saveGifMediaToCache gifMedia blob c with
      | inl c' => c'
      | inr _ => c
      end
  | Read gifMedia => (readGifMediaFromCache gifMedia c).2
  | Collect a => collect a c
  end.

Definition runCacheOps (ops : list CacheOp) (c : Caches) : Caches :=
  fold_left cacheStep ops c.

(** The step leaves the weak-map entry of the object at [a] alone. *)
Definition keepsLive (a : positive) (op : CacheOp) : Prop :=
  match op with
  | Save gifMedia _ => addr gifMedia ≠ a
  | Read _ => True
  | Collect a' => a' ≠ a
  end.

(** The bounded cache of a state is the one the panel configured, within its
    bound. *)
Definition cacheWithinBudget (c : Caches) : Prop :=
  LRUCache.options (FunGifBlobCache c) = cacheOptions
  ∧ (LRUCache.calculatedSize (FunGifBlobCache c) ≤ MAX_CACHE_SIZE)%N.

(** ** The waterfall: range extractor and prefetch (lines 266-337) *)

Definition GIF_WATERFALL_COLUMNS : Z := 2.

(** [Range] of [@tanstack/react-virtual]. *)
Record Range : Type := mkRange {
  startIndex : Z;
  endIndex : Z;
  overscan : Z;
  count : Z;
}.

(** [indexes.includes(x)] *)
Definition includes (x : Z) (indexes : list Z) : bool := existsb (Z.eqb x) indexes.

(** [rangeExtractor]: [defaultRangeExtractor] belongs to the virtualizer
    package and is taken as it comes; [count] is the item count the callback
    closes over. *)
Definition rangeExtractor (defaultRangeExtractor : Range → list Z) (count : Z) (range : Range)
    : list Z :=
  let indexes := defaultRangeExtractor range in
  let indexes := if negb (includes 0 indexes) then 0 :: indexes else indexes in
  let indexes := if negb (includes (count - 1) indexes) then indexes ++ [count - 1] else indexes in
  indexes.

(** [virtualizer.range?.endIndex ?? -1] *)
Definition lastIndexOf (range : option Range) : Z :=
  match range with
  | Some r => endIndex r
  | None => -1
  end.

(** The prefetch effect: [true] when its body reaches [fetchNextPage()]. *)
Definition prefetchEffect (lastIndex count : Z) (hasNextPage pending : bool) : bool :=
  if (lastIndex =? -1) || (count =? 0) || negb hasNextPage || pending then false
  else
    let overscan := 4 * GIF_WATERFALL_COLUMNS in
    lastIndex + overscan >=? count - 1.

(** The state [useInfiniteQuery] hands to the panel. *)
Module QueryState.
Record t : Type := make {
  pages : list GifsPaginated;
  pending : bool;
  rejected : bool;
  hasNextPage : bool;
}.
End QueryState.

(** Modelled from the spec: [fetchNextPage] of [useInfiniteQuery]
    ([../data/infinite], not among the sources) is a no-op if a load is already
    in flight or no next cursor exists; otherwise it starts a load, which is
    then in flight: [pending] is set. *)
Definition fetchNextPage (qs : QueryState.t) : QueryState.t :=
  if QueryState.pending qs || negb (QueryState.hasNextPage qs) then qs
  else {| QueryState.pages := QueryState.pages qs;
          QueryState.pending := true;
          QueryState.rejected := QueryState.rejected qs;
          QueryState.hasNextPage := QueryState.hasNextPage qs |}.

(** [queryState.pages.flatMap(page => page.gifs)] and its length. *)
Definition itemsOf (qs : QueryState.t) : list GifType.t :=
  flat_map gifs (QueryState.pages qs).

Definition countOf (qs : QueryState.t) : Z := Z.of_nat (length (itemsOf qs)).

(** The panel while it scrolls: the last index of the visible range, the query
    state, and how many times [fetchNextPage] has been called. *)
Record Scroller : Type := mkScroller {
  lastIndex : Z;
  queryState : QueryState.t;
  fetchCalls : nat;
}.

(** One run of the prefetch effect. *)
Definition runPrefetchEffect (s : Scroller) : Scroller :=
  let qs := queryState s in
  if prefetchEffect (lastIndex s) (countOf qs) (QueryState.hasNextPage qs) (QueryState.pending qs)
  then {| lastIndex := lastIndex s; queryState := fetchNextPage qs; fetchCalls := S (fetchCalls s) |}
  else s.

(** The virtualizer reports a new range.  The effect runs when a dependency
    changed: here [lastIndex], and then once more if the first run changed
    [pending]. *)
Definition scrollTo (s : Scroller) (range : option Range) : Scroller :=
  if lastIndexOf range =? lastIndex s then s
  else
    let s0 := {| lastIndex := lastIndexOf range; queryState := queryState s;
                 fetchCalls := fetchCalls s |} in
    let s1 := runPrefetchEffect s0 in
    if Bool.eqb (QueryState.pending (queryState s1)) (QueryState.pending (queryState s0))
    then s1 else runPrefetchEffect s1.

Definition scrollThrough (ranges : list (option Range)) (s : Scroller) : Scroller :=
  fold_left scrollTo ranges s.

(** ** The tab stop (lines 498-518 and 604-608) *)

(** [VirtualItem] of the virtualizer, as the panel reads it. *)
Record VirtualItem : Type := mkVirtualItem {
  index : Z;
  key : string;
  start : Z;
  itemSize : Z;
  lane : Z;
}.

(** [selectedItemKey != null ? key === selectedItemKey : item.index === 0] *)
Definition isTabbable (selectedItemKey : option string) (item : VirtualItem) : bool :=
  match selectedItemKey with
  | Some selected => String.eqb (key item) selected
  | None => index item =? 0
  end.

(** [tabIndex={props.isTabbable ? 0 : -1}] *)
Definition tabIndex (tabbable : bool) : Z := if tabbable then 0 else -1.

(** The tab indexes of the items the panel renders, in order. *)
Definition renderedTabIndexes (selectedItemKey : option string) (virtualItems : list VirtualItem)
    : list Z :=
  map (λ item, tabIndex (isTabbable selectedItemKey item)) virtualItems.

(** The rendered items that can be reached with Tab. *)
Definition tabbableItems (selectedItemKey : option string) (virtualItems : list VirtualItem)
    : list VirtualItem :=
  List.filter (isTabbable selectedItemKey) virtualItems.

(** [handleKeyboardStateChange]: [setSelectedItemKey(state.key)] *)
Definition handleKeyboardStateChange (stateKey : option string) (_selectedItemKey : option string)
    : option string := stateKey.

(** ** The download of one item (lines 555-594) *)

(** How [await fetchGif(url, signal)] ends. *)
Inductive FetchOutcome : Type :=
| Fulfilled (bytes : Uint8Array)
| Rejected (error : Error).

(** An object URL, by the blob it was made for. *)
Inductive ObjectURL : Type := createObjectURL (blob : Blob).

(** What the download effect of an item can touch: the caches of the module,
    the error log, and the item's [src] state. *)
Record ItemWorld : Type := mkItemWorld {
  caches : Caches;
  errorLog : list (string * string);
  src : option ObjectURL;
}.

(** The [try] block of [download]: [inr] is a throw, of the fetch or of the
    save; after a throw of the save, [setSrc] is not reached. *)
Definition downloadTry (gif : GifType.t) (outcome : FetchOutcome) (w : ItemWorld)
    : ItemWorld + Error :=
  match outcome with
  | Rejected error => inr error
  | Fulfilled bytes =>
      let blob := mkBlob [bytes] in
      match saveGifMediaToCache (GifType.previewMedia gif) blob (caches w) with
      | inr error => inr error
      | inl saved =>
          inl {| caches := saved;
                 errorLog := errorLog w;
                 src := Some (createObjectURL blob) |}
      end
  end.

(** [download]: the [try] block, and the [catch] that logs what is not an
    abort.  [inl] is a promise that fulfils, [inr] one that rejects. *)
Definition download (isAbortError : Error → bool) (toLogFormat : Error → string)
    (gif : GifType.t) (outcome : FetchOutcome) (w : ItemWorld) : ItemWorld + Error :=
  match downloadTry gif outcome w with
  | inl w' => inl w'
  | inr error =>
      if negb (isAbortError error)
      then inl {| caches := caches w;
                  errorLog := ("Failed to download gif", toLogFormat error) :: errorLog w;
                  src := src w |}
      else inl w
  end.

(** The effect: nothing to do when [src] is set, else the download. *)
Definition downloadEffect (isAbortError : Error → bool) (toLogFormat : Error → string)
    (gif : GifType.t) (outcome : FetchOutcome) (w : ItemWorld) : ItemWorld + Error :=
  match src w with
  | Some _ => inl w
  | None => download isAbortError toLogFormat gif outcome w
  end.

(** [{src != null && <FunGif src={src} ... />}]: the thumbnail the item shows. *)
Definition thumbnail (w : ItemWorld) : option ObjectURL := src w.

(** ** The debounced query (lines 141-188) *)

(** What one run of the effect body decides: return early, call
    [setDebouncedQuery] at once, or arm a timer that will. *)
Inductive EffectResult : Type :=
| Skip
| SetNow (query : GifsQuery)
| SetLater (query : GifsQuery) (ms : nat).

(** The body of the effect, from the state [debouncedQuery] and the two values
    of the render: [text] is [searchQuery], the trimmed search input, and
    [section] is [selectedGifsSection]. *)
Definition debounceEffect (debounced : GifsQuery) (text : string) (section : FunGifsSection)
    : EffectResult :=
  if String.eqb (searchQuery debounced) text
     && bool_decide (selectedSection debounced = section)
  then Skip
  else
    let query := {| selectedSection := section; searchQuery := text |} in
    if String.eqb text "" then SetNow query
    else SetLater query 500.

(** The controller on a clock that counts milliseconds: [requested] holds the
    two values of the current render as the query the effect would build from
    them; [timeout] is the armed timer, with the time it is due and the query
    its callback closes over; [applied] lists the calls of [setDebouncedQuery],
    newest first, each with its time.  [useInfiniteQuery] gets
    [debouncedQuery], so these are the queries that reach the loader. *)
Record Controller : Type := mkController {
  now : nat;
  requested : GifsQuery;
  debouncedQuery : GifsQuery;
  timeout : option (nat * GifsQuery);
  applied : list (nat * GifsQuery);
}.

Definition clearTimeout (s : Controller) : Controller :=
  {| now := now s; requested := requested s; debouncedQuery := debouncedQuery s;
     timeout := None; applied := applied s |}.

Definition setTimeout (query : GifsQuery) (ms : nat) (s : Controller) : Controller :=
  {| now := now s; requested := requested s; debouncedQuery := debouncedQuery s;
     timeout := Some ((now s + ms)%nat, query); applied := applied s |}.

Definition setDebouncedQuery (query : GifsQuery) (s : Controller) : Controller :=
  {| now := now s; requested := requested s; debouncedQuery := query;
     timeout := timeout s; applied := (now s, query) :: applied s |}.

(** A render in which a dependency of the effect changed: the cleanup of the
    previous run clears its timer, then the body runs.  A [setDebouncedQuery]
    changes a dependency in turn, so the effect runs again; [fuel] bounds these
    repeats. *)
Fixpoint render (fuel : nat) (s : Controller) : Controller :=
  let s := clearTimeout s in
  match debounceEffect (debouncedQuery s) (searchQuery (requested s))
          (selectedSection (requested s)) with
  | Skip => s
  | SetLater query ms => setTimeout query ms s
  | SetNow query =>
      match fuel with
      | O => setDebouncedQuery query s
      | S fuel' => render fuel' (setDebouncedQuery query s)
      end
  end.

(** The panel is mounted: [useState] starts [debouncedQuery] at the values of
    the first render. *)
Definition mount (query : GifsQuery) : Controller :=
  {| now := 0; requested := query; debouncedQuery := query; timeout := None; applied := [] |}.

(** The parent renders the panel with a search text and section; the effect
    only runs if one of them differs from the last render. *)
Definition change (query : GifsQuery) (s : Controller) : Controller :=
  if bool_decide (query = requested s) then s
  else render 1 {| now := now s; requested := query; debouncedQuery := debouncedQuery s;
                   timeout := timeout s; applied := applied s |}.

(** One millisecond passes; a timer that is due runs its callback. *)
Definition tick (s : Controller) : Controller :=
  let s := {| now := S (now s); requested := requested s; debouncedQuery := debouncedQuery s;
              timeout := timeout s; applied := applied s |} in
  match timeout s with
  | Some (due, query) =>
      if (due <=? now s)%nat
      then render 1 (setDebouncedQuery query (clearTimeout s))
      else s
  | None => s
  end.

Inductive Event : Type :=
| Change (query : GifsQuery)
| Tick.

Definition step (s : Controller) (e : Event) : Controller :=
  match e with
  | Change query => change query s
  | Tick => tick s
  end.

Definition run (events : list Event) (s : Controller) : Controller :=
  fold_left step events s.

(** [ms] milliseconds with no change. *)
Definition elapse (ms : nat) : list Event := repeat Tick ms.

(** What the user did, read off the events alone: the time, the query now
    requested, and the time it was requested at ([since]: the last change that
    made a difference). *)
Record Timeline : Type := mkTimeline {
  clock : nat;
  current : GifsQuery;
  since : nat;
}.

Definition timelineStep (tl : Timeline) (e : Event) : Timeline :=
  match e with
  | Change query =>
      if bool_decide (query = current tl) then tl
      else {| clock := clock tl; current := query; since := clock tl |}
  | Tick => {| clock := S (clock tl); current := current tl; since := since tl |}
  end.

Definition timelineOf (initial : GifsQuery) (events : list Event) : Timeline :=
  fold_left timelineStep events {| clock := 0; current := initial; since := 0 |}.

(** The same state, [ms] milliseconds later. *)
Definition later (ms : nat) (s : Controller) : Controller :=
  {| now := (now s + ms)%nat; requested := requested s; debouncedQuery := debouncedQuery s;
     timeout := timeout s; applied := applied s |}.

(** A controller that is where the events say it should be: same clock, same
    request, and either no timer and the request already applied, or a timer
    for the request, a search, due 500 ms after it was made and not yet due. *)
Definition settled (s : Controller) (tl : Timeline) : Prop :=
  now s = clock tl
  ∧ requested s = current tl
  ∧ match timeout s with
    | None => debouncedQuery s = requested s
    | Some (due, query) =>
        query = requested s ∧ searchQuery query ≠ "" ∧ due = (since tl + 500)%nat
        ∧ (now s < due)%nat
    end.

(** Event [e] made the controller apply a query: the one requested at that
    moment, either at the very change that asked for it, its text being empty,
    or on the tick that completes 500 ms since it was asked for. *)
Definition appliedBy (e : Event) (tl : Timeline) (s s' : Controller) : Prop :=
  applied s' = applied s
  ∨ ∃ query,
      applied s' = (clock tl, query) :: applied s
      ∧ debouncedQuery s' = query
      ∧ query = current tl
      ∧ ((searchQuery query = "" ∧ e = Change query ∧ since tl = clock tl)
         ∨ (searchQuery query ≠ "" ∧ e = Tick ∧ clock tl = (since tl + 500)%nat)).

(** ** Sample data for worked runs *)

(** A blob of [n] bytes made of one part. *)
Definition blobOfSize (n : N) : Blob := mkBlob [mkBytes n 0].

(** A media object at identity [a] for the url [u]. *)
Definition mediaAt (a : positive) (u : string) : Obj GifMediaType.t :=
  mkObj a (GifMediaType.make u 160 120).

Definition MB : N := (1024 * 1024)%N.

(** A stand-in for the virtualizer's own extractor in worked runs: every index
    from [startIndex - overscan] to [endIndex + overscan], clipped to the
    list. *)
Definition plainRangeExtractor (r : Range) : list Z :=
  let first := Z.max (startIndex r - overscan r) 0 in
  let last := Z.min (endIndex r + overscan r) (count r - 1) in
  map (λ i, first + Z.of_nat i) (seq 0 (Z.to_nat (last - first + 1))).

(** A query state of [n] items in one page, with more to come, idle. *)
Definition idleWithItems (gif : GifType.t) (n : nat) : QueryState.t :=
  {| QueryState.pages := [mkPage (Some "c1") (repeat gif n)];
     QueryState.pending := false;
     QueryState.rejected := false;
     QueryState.hasNextPage := true |}.

Definition sampleGif : GifType.t :=
  GifType.make "gif" "title" "description" (mediaAt 1 "preview") (mediaAt 2 "full").

(** A visible range ending at [e] in a list of 40. *)
Definition rangeEndingAt (e : Z) : option Range :=
  Some {| startIndex := e - 5; endIndex := e; overscan := 8; count := 40 |}.

(** The virtual item the panel gets for index [i] of a result list whose ids
    are [gif-0], [gif-1], ... *)
Definition sampleVirtualItem (i : Z) : VirtualItem :=
  {| index := i; key := "gif-" +:+ pretty i; start := 100 * i; itemSize := 124; lane := i mod 2 |}.

(** What is rendered of 40 items when the view has gone down to items 30..37:
    index 0, and 22 to 39. *)
Definition scrolledDownItems : list VirtualItem :=
  map sampleVirtualItem
    (rangeExtractor plainRangeExtractor 40
       {| startIndex := 30; endIndex := 37; overscan := 8; count := 40 |}).

(** The roving tab stop as the spec words it: exactly one rendered item has
    tab index 0. *)
Definition oneTabStop (selectedItemKey : option string) (virtualItems : list VirtualItem) : Prop :=
  length (List.filter (Z.eqb 0) (renderedTabIndexes selectedItemKey virtualItems)) = 1%nat.

(** An abort is told by its name in worked runs. *)
Definition isAbortByName (error : Error) : bool := String.eqb (name error) "AbortError".

Definition messageOf (error : Error) : string := message error.

(** An item that has no thumbnail yet, over the empty caches. *)
Definition freshItemWorld : ItemWorld :=
  {| caches := initialCaches; errorLog := []; src := None |}.

(** The panel opens on trending; the user types "cat" and, 300 ms later,
    "cats". *)
Definition trendingQuery : GifsQuery := mkQuery Trending "".
Definition catQuery : GifsQuery := mkQuery SearchResults "cat".
Definition catsQuery : GifsQuery := mkQuery SearchResults "cats".

Definition typedCat : Controller :=
  run (Change catQuery :: elapse 300) (mount trendingQuery).

(** ** The search box and the sub-navigation (lines 141-156, 343-348, 393-448) *)

(** The calls a handler makes on the context. *)
Inductive Notification : Type :=
| OnChangeSelectedSelectGifsSection (section : FunGifsSection)
| OnSearchInputChange (searchInput : string).

(** [handleSearchInputChange]; [trim] is [String.prototype.trim]. *)
Definition handleSearchInputChange (trim : string → string) (recentGifs : list GifType.t)
    (nextSearchInput : string) : list Notification :=
  [ (if negb (String.eqb (trim nextSearchInput) "") then
       OnChangeSelectedSelectGifsSection SearchResults
     else if (0 <? length recentGifs)%nat then
       OnChangeSelectedSelectGifsSection Recents
     else
       OnChangeSelectedSelectGifsSection Trending);
    OnSearchInputChange nextSearchInput ].

(** [handleSelectSection]: the key of the list box item goes on as it is. *)
Definition handleSelectSection (key : FunGifsSection) : list Notification :=
  [ OnChangeSelectedSelectGifsSection key ].

(** The items of the sub-navigation list box, in the order they are rendered;
    the recents item only when there are recent gifs. *)
Definition subNavItems (recentGifs : list GifType.t) : list FunGifsSection :=
  (if (0 <? length recentGifs)%nat then [Recents] else [])
  ++ [Trending; Celebrate; Love; ThumbsUp; Surprised; Excited; Sad; Angry].

(** Modelled from the spec: the context of [../FunProvider] is not among the
    sources; it is the parent state holder of the spec, which keeps the search
    input and the selected section it is notified of and renders the panel with
    them. *)
Record FunContext : Type := mkContext {
  searchInput : string;
  selectedGifsSection : FunGifsSection;
}.

Definition notify (ctx : FunContext) (n : Notification) : FunContext :=
  match n with
  | OnChangeSelectedSelectGifsSection section =>
      {| searchInput := searchInput ctx; selectedGifsSection := section |}
  | OnSearchInputChange input =>
      {| searchInput := input; selectedGifsSection := selectedGifsSection ctx |}
  end.

(** The query a render asks for: [selectedGifsSection] and
    [searchQuery = searchInput.trim()] (line 141). *)
Definition requestedQuery (trim : string → string) (ctx : FunContext) : GifsQuery :=
  {| selectedSection := selectedGifsSection ctx; searchQuery := trim (searchInput ctx) |}.

(** The panel in use: the context and the debounce controller.  The handlers
    run in an event handler, so both notifications land before the next
    render. *)
Record Session : Type := mkSession {
  context : FunContext;
  controller : Controller;
}.

Inductive UserEvent : Type :=
| Typed (nextSearchInput : string)
| Selected (key : FunGifsSection)
| Waited.

Definition openPanel (trim : string → string) (ctx : FunContext) : Session :=
  {| context := ctx; controller := mount (requestedQuery trim ctx) |}.

Definition sessionStep (trim : string → string) (recentGifs : list GifType.t)
    (s : Session) (e : UserEvent) : Session :=
  match e with
  | Typed nextSearchInput =>
      let ctx := fold_left notify
                   (handleSearchInputChange trim recentGifs nextSearchInput) (context s) in
      {| context := ctx; controller := change (requestedQuery trim ctx) (controller s) |}
  | Selected key =>
      let ctx := fold_left notify (handleSelectSection key) (context s) in
      {| context := ctx; controller := change (requestedQuery trim ctx) (controller s) |}
  | Waited => {| context := context s; controller := tick (controller s) |}
  end.

Definition sessionRun (trim : string → string) (recentGifs : list GifType.t)
    (events : list UserEvent) (s : Session) : Session :=
  fold_left (sessionStep trim recentGifs) events s.

(** Every query [useInfiniteQuery] has been given: the one the panel was
    mounted with and those applied since, newest first. *)
Definition queriesSeen (initial : GifsQuery) (c : Controller) : list GifsQuery :=
  map snd (applied c) ++ [initial].

(** A user event the sub-navigation can produce: a selection carries the key of
    one of its items. *)
Definition offered (recentGifs : list GifType.t) (e : UserEvent) : Prop :=
  match e with
  | Selected key => In key (subNavItems recentGifs)
  | _ => True
  end.

(** A query the loader has a branch for: a search text, or a section of the
    dispatch table. *)
Definition dispatchable (q : GifsQuery) : Prop :=
  searchQuery q ≠ ""
  ∨ In (selectedSection q)
       [Recents; Trending; Celebrate; Love; ThumbsUp; Surprised; Excited; Sad; Angry].

(** No two neighbours of a list are equal. *)
Fixpoint distinctNeighbours (l : list GifsQuery) : Prop :=
  match l with
  | a :: (b :: _) as rest => a ≠ b ∧ distinctNeighbours rest
  | _ => True
  end.

(** ** Item keys, mounting an item, the lightbox (lines 288-293, 555-558, 633-645) *)

(** [getItemKey]: [items[index].id]; [None] where [items[index]] is
    [undefined] and reading [id] throws. *)
Definition getItemKey (items : list GifType.t) (index : Z) : option string :=
  if index <? 0 then None
  else GifType.id <$> items !! Z.to_nat index.

(** The initial [src] of an item: the cached preview, if any, as an object
    URL. *)
Definition mountItem (gif : GifType.t) (c : Caches) (log : list (string * string)) : ItemWorld :=
  let r := readGifMediaFromCache (GifType.previewMedia gif) c in
  {| caches := r.2; errorLog := log; src := createObjectURL <$> r.1 |}.

(** What the [useMemo] of [GifsLightbox] comes to. *)
Inductive LightboxResult : Type :=
| LightboxClosed
| LightboxShown (gif : GifType.t) (url : ObjectURL)
| LightboxThrows (message : string).

Definition quoted (s : string) : string :=
  String (Ascii.ascii_of_nat 34) (s +:+ String (Ascii.ascii_of_nat 34) EmptyString).

Definition gifsLightbox (items : list GifType.t) (key : option string) (c : Caches)
    : LightboxResult * Caches :=
  match key with
  | None => (LightboxClosed, c)
  | Some k =>
      match List.find (λ item, String.eqb (GifType.id item) k) items with
      | None => (LightboxThrows ("Must have gif for " +:+ quoted k), c)
      | Some gif =>
          let r := readGifMediaFromCache (GifType.previewMedia gif) c in
          match r.1 with
          | None => (LightboxThrows "Missing media", r.2)
          | Some blob => (LightboxShown gif (createObjectURL blob), r.2)
          end
      end
  end.

(** Strictly ascending indexes, all of them indexes of a list of [count]. *)
Definition ascendingWithin (count : Z) (indexes : list Z) : Prop :=
  StronglySorted Z.lt indexes ∧ Forall (λ i, 0 ≤ i ≤ count - 1) indexes.

(** Sample data: a gif with its own id and media objects, and a trim for
    spaces at both ends. *)
Definition gifNumber (n : positive) : GifType.t :=
  GifType.make ("gif-" +:+ pretty (Zpos n)) "title" "description"
    (mediaAt (2 * n) ("preview-" +:+ pretty (Zpos n)))
    (mediaAt (2 * n + 1) ("full-" +:+ pretty (Zpos n))).

Fixpoint dropSpaces (s : string) : string :=
  match s with
  | String " "%char rest => dropSpaces rest
  | _ => s
  end.

Definition trimSpaces (s : string) : string :=
  String.rev (dropSpaces (String.rev (dropSpaces s))).

(** Every query a controller holds, in any of its fields, has property [P]. *)
Definition controllerAll (P : GifsQuery → Prop) (c : Controller) : Prop :=
  P (requested c)
  ∧ P (debouncedQuery c)
  ∧ (∀ due query, timeout c = Some (due, query) → P query)
  ∧ Forall P (map snd (applied c)).

(** ** The object URLs of an item (lines 555-594) *)

#[global] Instance Uint8Array_eq_dec : EqDecision Uint8Array.
Proof. solve_decision. Defined.

#[global] Instance Blob_eq_dec : EqDecision Blob.
Proof. solve_decision. Defined.

#[global] Instance ObjectURL_eq_dec : EqDecision ObjectURL.
Proof. solve_decision. Defined.

(** The object URLs the browser holds, one entry for each [createObjectURL]
    not yet revoked; [URL.revokeObjectURL] takes one entry out. *)
Fixpoint revokeObjectURL (u : ObjectURL) (urls : list ObjectURL) : list ObjectURL :=
  match urls with
  | [] => []
  | u' :: rest => if decide (u' = u) then rest else u' :: revokeObjectURL u rest
  end.

(** The cleanup of the second effect of an item:
    [if (src != null) URL.revokeObjectURL(src)]. *)
Definition revokeSrc (s : option ObjectURL) (urls : list ObjectURL) : list ObjectURL :=
  match s with
  | Some u => revokeObjectURL u urls
  | None => urls
  end.

(** An item on screen: what it can touch, the browser's object URLs, and
    whether its fetch is still in flight. *)
Record MountedItem : Type := mkMountedItem {
  world : ItemWorld;
  objectURLs : list ObjectURL;
  fetching : bool;
}.

(** The item is mounted: the initial [src] makes an object URL out of a cached
    blob, and the download effect starts a fetch when there is none. *)
Definition mountItemIn (gif : GifType.t) (c : Caches) (log : list (string * string))
    (urls : list ObjectURL) : MountedItem :=
  let w := mountItem gif c log in
  {| world := w;
     objectURLs := match src w with Some u => u :: urls | None => urls end;
     fetching := bool_decide (src w = None) |}.

(** The fetch settles while the item is mounted.  When the [try] block runs
    to its end, the bytes have become a blob and an object URL, which [setSrc]
    stores; the render that follows runs the cleanup of the second effect on
    the [src] it replaces.  When it throws, no object URL was made. *)
Definition settleFetch (isAbortError : Error → bool) (toLogFormat : Error → string)
    (gif : GifType.t) (outcome : FetchOutcome) (m : MountedItem) : MountedItem :=
  if fetching m then
    match download isAbortError toLogFormat gif outcome (world m) with
    | inl w' =>
        {| world := w';
           objectURLs :=
             match downloadTry gif outcome (world m) with
             | inl tried =>
                 match src tried with
                 | Some u => revokeSrc (src (world m)) (u :: objectURLs m)
                 | None => objectURLs m
                 end
             | inr _ => objectURLs m
             end;
           fetching := false |}
    | inr _ => m
    end
  else m.

(** The item is unmounted: the cleanup of the second effect runs on the
    current [src].  What is left are the browser's object URLs. *)
Definition unmountItem (m : MountedItem) : list ObjectURL :=
  revokeSrc (src (world m)) (objectURLs m).

(** ** What the sub-navigation shows (lines 370-392) *)

(** [visibleSelectedSection]; [queryStateQuery] is [queryState.query], the
    query whose pages are on screen. *)
Definition visibleSelectedSection (debounced queryStateQuery : GifsQuery) : FunGifsSection :=
  if bool_decide (selectedSection debounced = SearchResults)
  then selectedSection queryStateQuery
  else selectedSection debounced.

(** [{visibleSelectedSection !== FunSectionCommon.SearchResults && <FunSubNav>...}] *)
Definition subNavShown (debounced queryStateQuery : GifsQuery) : bool :=
  negb (bool_decide (visibleSelectedSection debounced queryStateQuery = SearchResults)).

(** The virtualizer keys its items with [getItemKey]: each rendered item
    carries the key of its index. *)
Definition keyedBy (items : list GifType.t) (virtualItems : list VirtualItem) : Prop :=
  Forall (λ item, getItemKey items (index item) = Some (key item)) virtualItems.

(* ===================================================================== *)
(** * Part II: properties                                                 *)
(* ===================================================================== *)

(** ** The loader *)

Section LoaderFacts.
Variable recentGifs : list GifType.t.
Variable signal : AbortSignal.

Lemma loader_searching (q : GifsQuery) (prev : option GifsPaginated) :
  searchQuery q ≠ "" →
  loader recentGifs q prev signal =
    CallFetchGifsSearch (searchQuery q) (limitOf (cursorOf prev)) (cursorOf prev) signal.
Proof.
  intros Hne. unfold loader.
  destruct (String.eqb_spec (searchQuery q) "") as [E | _]; [contradiction | reflexivity].
Qed.

Lemma loader_browsing (s : FunGifsSection) (prev : option GifsPaginated) :
  loader recentGifs (mkQuery s "") prev signal =
    match s with
    | SearchResults => ThrowAssertion "Section is search results when not searching"
    | Recents => Resolved (mkPage None recentGifs)
    | Trending => CallFetchGifsFeatured (limitOf (cursorOf prev)) (cursorOf prev) signal
    | Unlisted _ => ThrowMissingCase s
    | mood =>
        match moodTerm mood with
        | Some term => CallFetchGifsSearch term (limitOf (cursorOf prev)) (cursorOf prev) signal
        | None => ThrowMissingCase s
        end
    end.
Proof. destruct s; reflexivity. Qed.

End LoaderFacts.

(** C2. With an empty search text the loader dispatches on the section: recents
    resolve on the spot from the list the panel holds, with no next cursor and
    no fetch; trending goes to the featured fetch; each of the seven mood
    categories goes to the search fetch with its own term; every other section
    value makes the loader throw, so no page comes back. *)
Theorem loader_dispatch_by_section
    (recentGifs : list GifType.t) (s : FunGifsSection)
    (prev : option GifsPaginated) (signal : AbortSignal) :
  let out := loader recentGifs (mkQuery s "") prev signal in
  let cursor := cursorOf prev in
  let limit := limitOf cursor in
  match s with
  | Recents => out = Resolved {| next := None; gifs := recentGifs |}
  | Trending => out = CallFetchGifsFeatured limit cursor signal
  | Celebrate => out = CallFetchGifsSearch "celebrate" limit cursor signal
  | Love => out = CallFetchGifsSearch "love" limit cursor signal
  | ThumbsUp => out = CallFetchGifsSearch "thumbs-up" limit cursor signal
  | Surprised => out = CallFetchGifsSearch "surprised" limit cursor signal
  | Excited => out = CallFetchGifsSearch "excited" limit cursor signal
  | Sad => out = CallFetchGifsSearch "sad" limit cursor signal
  | Angry => out = CallFetchGifsSearch "angry" limit cursor signal
  | SearchResults | Unlisted _ =>
      throws out = true ∧ ∀ page, out ≠ Resolved page
  end.
Proof.
  intros out cursor limit. subst out.
  rewrite loader_browsing. destruct s; cbn; try reflexivity; split; try reflexivity; discriminate.
Qed.

(** C7. Whenever the loader asks the network for a page, it asks for 10 items
    when there is no cursor to continue from (no previous page, or a previous
    page whose [next] is null) and for 30 items when there is one. *)
Theorem loader_page_size
    (recentGifs : list GifType.t) (q : GifsQuery)
    (prev : option GifsPaginated) (signal : AbortSignal) (limit : Z) :
  requestedLimit (loader recentGifs q prev signal) = Some limit →
  (cursorOf prev = None → limit = 10) ∧
  (∀ c, cursorOf prev = Some c → limit = 30) ∧
  (prev = None → limit = 10).
Proof.
  intros H.
  assert (limit = limitOf (cursorOf prev)) as ->.
  { destruct (decide (searchQuery q = "")) as [E | NE].
    - destruct q as [s t]; cbn in E; subst t.
      rewrite loader_browsing in H. destruct s; cbn in H; congruence.
    - rewrite loader_searching in H by assumption. cbn in H. congruence. }
  repeat split.
  - intros ->. reflexivity.
  - intros c ->. reflexivity.
  - intros ->. reflexivity.
Qed.

(** First page of trending, then the page after cursor ["c1"]. *)
Lemma loader_page_size_witness :
  (requestedLimit (loader [] (mkQuery Trending "") None 1%positive) = Some 10
   ∧ ((cursorOf None = None → 10 = 10)
      ∧ (∀ c, cursorOf None = Some c → 10 = 30) ∧ (@None GifsPaginated = None → 10 = 10)))
  ∧ (requestedLimit (loader [] (mkQuery Trending "") (Some (mkPage (Some "c1") [])) 1%positive)
       = Some 30
     ∧ ((cursorOf (Some (mkPage (Some "c1") [])) = None → 30 = 10)
        ∧ (∀ c, cursorOf (Some (mkPage (Some "c1") [])) = Some c → 30 = 30)
        ∧ (Some (mkPage (Some "c1") []) = None → 30 = 10))).
Proof.
  split; (split; [reflexivity |]).
  - exact (loader_page_size [] (mkQuery Trending "") None 1%positive 10 eq_refl).
  - exact (loader_page_size [] (mkQuery Trending "")
             (Some (mkPage (Some "c1") [])) 1%positive 30 eq_refl).
Defined.

(** C10. A query with a search text goes to the search fetch with that text,
    whatever its section is: two queries with the same non-empty text and any
    two sections get the same call, so the section table is only read when the
    text is empty. *)
Theorem loader_search_text_first
    (recentGifs : list GifType.t) (text : string) (s s' : FunGifsSection)
    (prev : option GifsPaginated) (signal : AbortSignal) :
  text ≠ "" →
  loader recentGifs (mkQuery s text) prev signal =
    CallFetchGifsSearch text (limitOf (cursorOf prev)) (cursorOf prev) signal
  ∧ loader recentGifs (mkQuery s text) prev signal =
    loader recentGifs (mkQuery s' text) prev signal.
Proof.
  intros Hne. rewrite !loader_searching by assumption. split; reflexivity.
Qed.

Lemma loader_search_text_first_witness :
  "cats" ≠ ""
  ∧ loader [] (mkQuery Recents "cats") None 1%positive =
      CallFetchGifsSearch "cats" 10 None 1%positive
  ∧ loader [] (mkQuery Recents "cats") None 1%positive =
      loader [] (mkQuery (Unlisted "nope") "cats") None 1%positive.
Proof.
  assert (H : "cats" ≠ "") by discriminate.
  split; [exact H |].
  exact (loader_search_text_first [] "cats" Recents (Unlisted "nope") None 1%positive H).
Defined.

(** ** The byte-bounded cache *)

Section LRUFacts.
Context {V : Type} (o : LRUCache.Options V).

Lemma lru_total_app (l1 l2 : list (string * V)) :
  LRUCache.total o (l1 ++ l2) = (LRUCache.total o l1 + LRUCache.total o l2)%N.
Proof. induction l1 as [| e l1 IH]; cbn; [reflexivity | rewrite IH; lia]. Qed.

Lemma lru_remove_total (k : string) (l : list (string * V)) :
  (LRUCache.total o (LRUCache.remove k l) ≤ LRUCache.total o l)%N.
Proof.
  induction l as [| [k' v] l IH]; cbn; [lia |].
  destruct (String.eqb k' k); cbn; lia.
Qed.

Lemma lru_remove_lookup_total (k : string) (v : V) (l : list (string * V)) :
  LRUCache.lookup k l = Some v →
  (LRUCache.total o (LRUCache.remove k l) + LRUCache.sizeCalculation o v ≤ LRUCache.total o l)%N.
Proof.
  induction l as [| [k' v'] l IH]; cbn; [discriminate |].
  destruct (String.eqb k' k).
  - intros [= ->]. pose proof (lru_remove_total k l). unfold LRUCache.cost; cbn. lia.
  - intros H. specialize (IH H). cbn. lia.
Qed.

Lemma lru_remove_lookup (k : string) (l : list (string * V)) :
  LRUCache.lookup k (LRUCache.remove k l) = None.
Proof.
  induction l as [| [k' v'] l IH]; cbn; [reflexivity |].
  destruct (String.eqb k' k) eqn:E; cbn; [assumption | rewrite E; assumption].
Qed.

Lemma lru_lookup_app_last (k : string) (v : V) (l : list (string * V)) :
  LRUCache.lookup k l = None → LRUCache.lookup k (l ++ [(k, v)]) = Some v.
Proof.
  induction l as [| [k' v'] l IH]; cbn.
  - intros _. rewrite String.eqb_refl. reflexivity.
  - destruct (String.eqb k' k); [discriminate | assumption].
Qed.

(** What eviction leaves: the newest end of the list, within the budget, and
    not one entry less than it could have kept. *)
Lemma lru_evict_spec (budget : N) (l : list (string * V)) :
  ∃ evicted,
    l = evicted ++ LRUCache.evict o budget l
    ∧ (LRUCache.total o (LRUCache.evict o budget l) ≤ budget)%N
    ∧ ∀ older last, evicted = older ++ [last] →
        (budget < LRUCache.total o (last :: LRUCache.evict o budget l))%N.
Proof.
  induction l as [| e l IH].
  - exists []. cbn. repeat split; [lia |]. intros [|] ? ?; discriminate.
  - cbn [LRUCache.evict].
    destruct (N.leb_spec (LRUCache.total o (e :: l)) budget) as [Hfit | Hover].
    + exists []. repeat split; [assumption |]. intros [|] ? ?; discriminate.
    + destruct IH as (ev & Hl & Hle & Hmin).
      exists (e :: ev). repeat split.
      * cbn. f_equal. exact Hl.
      * exact Hle.
      * intros older last Heq.
        destruct ev as [| x ev'].
        -- destruct older as [| y older']; cbn in Heq.
           ++ injection Heq as <-. cbn in Hl. rewrite <- Hl. exact Hover.
           ++ injection Heq as _ Heq. destruct older'; discriminate.
        -- destruct older as [| y older']; cbn in Heq.
           ++ discriminate.
           ++ injection Heq as _ Heq. exact (Hmin older' last Heq).
Qed.

Lemma lru_evict_lookup_suffix (budget : N) (k : string) (l : list (string * V)) :
  LRUCache.lookup k l = None → LRUCache.lookup k (LRUCache.evict o budget l) = None.
Proof.
  induction l as [| [k' v'] l IH]; [reflexivity |].
  intros H. cbn [LRUCache.evict].
  destruct (LRUCache.total o ((k', v') :: l) <=? budget)%N; [exact H |].
  apply IH. cbn in H. destruct (String.eqb k' k); [discriminate | exact H].
Qed.

End LRUFacts.

Lemma lru_store_options {V : Type} (k : string) (v : V) (c : LRUCache.t V) :
  LRUCache.options (LRUCache.store k v c) = LRUCache.options c.
Proof. unfold LRUCache.store. destruct (_ <? _)%N; reflexivity. Qed.

Lemma lru_get_options {V : Type} (k : string) (c : LRUCache.t V) :
  LRUCache.options (LRUCache.get k c).2 = LRUCache.options c.
Proof. unfold LRUCache.get. destruct (LRUCache.lookup _ _); reflexivity. Qed.

Lemma lru_store_budget {V : Type} (k : string) (v : V) (c : LRUCache.t V) :
  (LRUCache.calculatedSize c ≤ LRUCache.maxSize (LRUCache.options c))%N →
  (LRUCache.calculatedSize (LRUCache.store k v c) ≤ LRUCache.maxSize (LRUCache.options c))%N.
Proof.
  intros Hc. unfold LRUCache.store.
  destruct (N.ltb_spec (LRUCache.maxSize (LRUCache.options c))
              (LRUCache.sizeCalculation (LRUCache.options c) v)) as [Hrej | Hok];
    [exact Hc |].
  unfold LRUCache.calculatedSize; cbn [LRUCache.options LRUCache.entries].
  rewrite lru_total_app. cbn. unfold LRUCache.cost; cbn.
  destruct (lru_evict_spec (LRUCache.options c)
              (LRUCache.maxSize (LRUCache.options c)
               - LRUCache.sizeCalculation (LRUCache.options c) v)%N
              (LRUCache.remove k (LRUCache.entries c))) as (_ & _ & Hle & _).
  lia.
Qed.

Lemma lru_get_budget {V : Type} (k : string) (c : LRUCache.t V) :
  (LRUCache.calculatedSize (LRUCache.get k c).2 ≤ LRUCache.calculatedSize c)%N.
Proof.
  unfold LRUCache.get. destruct (LRUCache.lookup k (LRUCache.entries c)) as [v |] eqn:E;
    cbn; [| lia].
  unfold LRUCache.calculatedSize; cbn [LRUCache.options LRUCache.entries].
  rewrite lru_total_app. cbn. unfold LRUCache.cost; cbn.
  pose proof (lru_remove_lookup_total (LRUCache.options c) k v _ E). lia.
Qed.

(** The write landed: an entry within the bound is there to be read. *)
Lemma lru_store_peek {V : Type} (k : string) (v : V) (c : LRUCache.t V) :
  (LRUCache.sizeCalculation (LRUCache.options c) v ≤ LRUCache.maxSize (LRUCache.options c))%N →
  LRUCache.peek k (LRUCache.store k v c) = Some v.
Proof.
  intros Hok. unfold LRUCache.store, LRUCache.peek.
  destruct (N.ltb_spec (LRUCache.maxSize (LRUCache.options c))
              (LRUCache.sizeCalculation (LRUCache.options c) v)) as [Hrej | _]; [lia |].
  cbn. apply lru_lookup_app_last, lru_evict_lookup_suffix, lru_remove_lookup.
Qed.

Lemma lru_get_peek {V : Type} (k : string) (c : LRUCache.t V) :
  (LRUCache.get k c).1 = LRUCache.peek k c.
Proof. unfold LRUCache.get, LRUCache.peek. destruct (LRUCache.lookup _ _); reflexivity. Qed.

(** ** The two caches of the panel *)

(** A write of a blob that has bytes goes through: the bounded cache takes it
    as an insertion and the weak map gets its entry. *)
Lemma saveGifMediaToCache_bytes (gifMedia : Obj GifMediaType.t) (blob : Blob) (c : Caches) :
  LRUCache.options (FunGifBlobCache c) = cacheOptions →
  (0 < size blob)%N →
  saveGifMediaToCache gifMedia blob c =
    inl {| FunGifBlobCache :=
             LRUCache.store (GifMediaType.url (val gifMedia)) blob (FunGifBlobCache c);
           FunGifBlobLiveCache := <[addr gifMedia := blob]> (FunGifBlobLiveCache c) |}.
Proof.
  intros Ho Hpos. unfold saveGifMediaToCache, LRUCache.set. rewrite Ho.
  cbn [LRUCache.sizeCalculation cacheOptions].
  destruct (N.eqb_spec (size blob) 0) as [E | _]; [lia | reflexivity].
Qed.

(** A write of a blob of no bytes throws and writes nothing. *)
Lemma saveGifMediaToCache_empty (gifMedia : Obj GifMediaType.t) (blob : Blob) (c : Caches) :
  LRUCache.options (FunGifBlobCache c) = cacheOptions →
  size blob = 0%N →
  saveGifMediaToCache gifMedia blob c = inr LRUCache.invalidSize.
Proof.
  intros Ho Hz. unfold saveGifMediaToCache, LRUCache.set. rewrite Ho.
  cbn [LRUCache.sizeCalculation cacheOptions]. rewrite Hz. reflexivity.
Qed.

(** Whatever a write does, it is one of these two. *)
Lemma saveGifMediaToCache_cases (gifMedia : Obj GifMediaType.t) (blob : Blob) (c : Caches) :
  saveGifMediaToCache gifMedia blob c = inr LRUCache.invalidSize
  ∨ saveGifMediaToCache gifMedia blob c =
      inl {| FunGifBlobCache :=
               LRUCache.store (GifMediaType.url (val gifMedia)) blob (FunGifBlobCache c);
             FunGifBlobLiveCache := <[addr gifMedia := blob]> (FunGifBlobLiveCache c) |}.
Proof.
  unfold saveGifMediaToCache, LRUCache.set. destruct (_ =? _)%N; [left | right]; reflexivity.
Qed.

Lemma initialCaches_within_budget : cacheWithinBudget initialCaches.
Proof. split; [reflexivity |]. cbn. unfold MAX_CACHE_SIZE. lia. Qed.

Lemma cacheStep_within_budget (c : Caches) (op : CacheOp) :
  cacheWithinBudget c → cacheWithinBudget (cacheStep c op).
Proof.
  intros [Ho Hb]. destruct op as [gifMedia blob | gifMedia | a]; cbn [cacheStep].
  - destruct (saveGifMediaToCache_cases gifMedia blob c) as [-> | ->]; [split; assumption |].
    split; cbn [FunGifBlobCache].
    + rewrite lru_store_options. exact Ho.
    + pose proof (lru_store_budget (GifMediaType.url (val gifMedia)) blob (FunGifBlobCache c)) as H.
      rewrite Ho in H. apply H. exact Hb.
  - unfold readGifMediaFromCache.
    destruct (FunGifBlobLiveCache c !! addr gifMedia); cbn; [split; assumption |].
    split; cbn.
    + rewrite lru_get_options. exact Ho.
    + pose proof (lru_get_budget (GifMediaType.url (val gifMedia)) (FunGifBlobCache c)). lia.
  - split; assumption.
Qed.

Lemma runCacheOps_within_budget (ops : list CacheOp) (c : Caches) :
  cacheWithinBudget c → cacheWithinBudget (runCacheOps ops c).
Proof.
  revert c. induction ops as [| op ops IH]; intros c Hc; [exact Hc |].
  cbn. apply IH, cacheStep_within_budget, Hc.
Qed.

Lemma store_evicts_oldest (c : LRUCache.t Blob) (k : string) (blob : Blob) :
  LRUCache.options c = cacheOptions →
  (size blob ≤ MAX_CACHE_SIZE)%N →
  ∃ evicted kept,
    LRUCache.remove k (LRUCache.entries c) = evicted ++ kept
    ∧ LRUCache.entries (LRUCache.store k blob c) = kept ++ [(k, blob)]
    ∧ ∀ older last, evicted = older ++ [last] →
        (MAX_CACHE_SIZE < LRUCache.total cacheOptions (last :: kept) + size blob)%N.
Proof.
  intros Ho Hsz. unfold LRUCache.store.
  rewrite Ho. cbn [LRUCache.maxSize LRUCache.sizeCalculation cacheOptions].
  destruct (N.ltb_spec MAX_CACHE_SIZE (size blob)) as [Hrej | _]; [lia |].
  cbn [LRUCache.entries].
  destruct (lru_evict_spec cacheOptions (MAX_CACHE_SIZE - size blob)%N
              (LRUCache.remove k (LRUCache.entries c))) as (ev & Hl & _ & Hmin).
  exists ev, (LRUCache.evict cacheOptions (MAX_CACHE_SIZE - size blob)%N
                (LRUCache.remove k (LRUCache.entries c))).
  repeat split; [exact Hl |].
  intros older last Heq. specialize (Hmin older last Heq). lia.
Qed.

Lemma store_rejects_oversize (c : LRUCache.t Blob) (k : string) (blob : Blob) :
  LRUCache.options c = cacheOptions →
  (MAX_CACHE_SIZE < size blob)%N →
  LRUCache.store k blob c = c.
Proof.
  intros Ho Hsz. unfold LRUCache.store.
  rewrite Ho. cbn [LRUCache.maxSize LRUCache.sizeCalculation cacheOptions].
  destruct (N.ltb_spec MAX_CACHE_SIZE (size blob)) as [_ | Hok]; [| lia].
  reflexivity.
Qed.

(** C3. Whatever the panel does to its caches, starting from the empty ones,
    the entries of the byte-bounded cache never add up to more than
    50 * 1024 * 1024 bytes.  A write of a blob that has bytes and is within the
    bound keeps the newest entries and drops the least recently used ones, as
    few as makes the blob fit: had the last dropped entry stayed, the bound
    would be exceeded.  A write of a blob that is over the bound by itself
    leaves the cache as it was.  A write of a blob of no bytes is refused with
    a throw. *)
Theorem durable_tier_budget :
  (∀ ops : list CacheOp,
     (LRUCache.calculatedSize (FunGifBlobCache (runCacheOps ops initialCaches))
        ≤ 52428800)%N)
  ∧ (∀ (c : Caches) (gifMedia : Obj GifMediaType.t) (blob : Blob),
       cacheWithinBudget c →
       (0 < size blob)%N →
       (size blob ≤ 52428800)%N →
       ∃ c' evicted kept,
         saveGifMediaToCache gifMedia blob c = inl c'
         ∧ LRUCache.remove (GifMediaType.url (val gifMedia)) (LRUCache.entries (FunGifBlobCache c))
           = evicted ++ kept
         ∧ LRUCache.entries (FunGifBlobCache c')
           = kept ++ [(GifMediaType.url (val gifMedia), blob)]
         ∧ ∀ older last, evicted = older ++ [last] →
             (52428800 < LRUCache.total cacheOptions (last :: kept) + size blob)%N)
  ∧ (∀ (c : Caches) (gifMedia : Obj GifMediaType.t) (blob : Blob),
       cacheWithinBudget c →
       (52428800 < size blob)%N →
       ∃ c', saveGifMediaToCache gifMedia blob c = inl c'
             ∧ FunGifBlobCache c' = FunGifBlobCache c)
  ∧ (∀ (c : Caches) (gifMedia : Obj GifMediaType.t) (blob : Blob),
       cacheWithinBudget c →
       size blob = 0%N →
       saveGifMediaToCache gifMedia blob c = inr LRUCache.invalidSize).
Proof.
  change 52428800%N with MAX_CACHE_SIZE.
  split; [| split; [| split]].
  - intros ops. apply (runCacheOps_within_budget ops initialCaches initialCaches_within_budget).
  - intros c gifMedia blob [Ho _] Hpos Hsz.
    destruct (store_evicts_oldest (FunGifBlobCache c) (GifMediaType.url (val gifMedia)) blob
                Ho Hsz) as (evicted & kept & H1 & H2 & H3).
    eexists _, evicted, kept. split; [apply saveGifMediaToCache_bytes; assumption |].
    split; [exact H1 |]. split; [exact H2 | exact H3].
  - intros c gifMedia blob [Ho _] Hsz.
    eexists. split; [apply saveGifMediaToCache_bytes; [exact Ho | unfold MAX_CACHE_SIZE in Hsz; lia] |].
    cbn [FunGifBlobCache]. apply store_rejects_oversize; assumption.
  - intros c gifMedia blob [Ho _] Hz. apply saveGifMediaToCache_empty; assumption.
Qed.

(** Two 30 MB blobs do not fit together: the second write drops the first.
    With three 20 MB blobs, a read of the oldest url in between saves it and the
    next write drops the other one.  A blob of 50 MB and one byte is not let
    in, and a blob of no bytes makes the write throw. *)
Lemma durable_tier_budget_witness :
  LRUCache.entries (FunGifBlobCache (runCacheOps
      [Save (mediaAt 1 "a") (blobOfSize (30 * MB)); Save (mediaAt 2 "b") (blobOfSize (30 * MB))]
      initialCaches))
    = [("b", blobOfSize (30 * MB))]
  ∧ LRUCache.entries (FunGifBlobCache (runCacheOps
      [Save (mediaAt 1 "a") (blobOfSize (20 * MB)); Save (mediaAt 2 "b") (blobOfSize (20 * MB));
       Read (mediaAt 3 "a"); Save (mediaAt 4 "c") (blobOfSize (20 * MB))]
      initialCaches))
    = [("a", blobOfSize (20 * MB)); ("c", blobOfSize (20 * MB))]
  ∧ (LRUCache.calculatedSize (FunGifBlobCache (runCacheOps
      [Save (mediaAt 1 "a") (blobOfSize (30 * MB)); Save (mediaAt 2 "b") (blobOfSize (30 * MB))]
      initialCaches)) ≤ 52428800)%N
  ∧ (∃ c', saveGifMediaToCache (mediaAt 1 "a") (blobOfSize (50 * MB + 1)) initialCaches = inl c'
           ∧ FunGifBlobCache c' = FunGifBlobCache initialCaches)
  ∧ saveGifMediaToCache (mediaAt 1 "a") (blobOfSize 0) initialCaches
    = inr LRUCache.invalidSize.
Proof.
  split; [vm_compute; reflexivity |].
  split; [vm_compute; reflexivity |].
  split; [apply (proj1 durable_tier_budget) |].
  split.
  - apply (proj1 (proj2 (proj2 durable_tier_budget))).
    + exact initialCaches_within_budget.
    + vm_compute; reflexivity.
  - apply (proj2 (proj2 (proj2 durable_tier_budget))).
    + exact initialCaches_within_budget.
    + reflexivity.
Defined.

Lemma readGifMediaFromCache_live (c : Caches) (gifMedia : Obj GifMediaType.t) (blob : Blob) :
  FunGifBlobLiveCache c !! addr gifMedia = Some blob →
  readGifMediaFromCache gifMedia c = (Some blob, c).
Proof. intros H. unfold readGifMediaFromCache. rewrite H. reflexivity. Qed.

Lemma readGifMediaFromCache_fallback (c : Caches) (gifMedia : Obj GifMediaType.t) :
  FunGifBlobLiveCache c !! addr gifMedia = None →
  readGifMediaFromCache gifMedia c =
    ((LRUCache.get (GifMediaType.url (val gifMedia)) (FunGifBlobCache c)).1,
     {| FunGifBlobCache := (LRUCache.get (GifMediaType.url (val gifMedia)) (FunGifBlobCache c)).2;
        FunGifBlobLiveCache := FunGifBlobLiveCache c |}).
Proof. intros H. unfold readGifMediaFromCache. rewrite H. reflexivity. Qed.

Lemma readGifMediaFromCache_keeps_live (c : Caches) (gifMedia : Obj GifMediaType.t) :
  FunGifBlobLiveCache (readGifMediaFromCache gifMedia c).2 = FunGifBlobLiveCache c.
Proof. unfold readGifMediaFromCache. destruct (_ !! _); reflexivity. Qed.

Lemma cacheStep_keeps_live (a : positive) (op : CacheOp) (c : Caches) :
  keepsLive a op →
  FunGifBlobLiveCache (cacheStep c op) !! a = FunGifBlobLiveCache c !! a.
Proof.
  destruct op as [gifMedia blob | gifMedia | a']; cbn [cacheStep keepsLive]; intros H.
  - destruct (saveGifMediaToCache_cases gifMedia blob c) as [-> | ->]; [reflexivity |].
    cbn [FunGifBlobLiveCache]. apply lookup_insert_ne. exact H.
  - rewrite readGifMediaFromCache_keeps_live. reflexivity.
  - apply lookup_delete_ne. exact H.
Qed.

Lemma runCacheOps_keeps_live (a : positive) (ops : list CacheOp) (c : Caches) :
  Forall (keepsLive a) ops →
  FunGifBlobLiveCache (runCacheOps ops c) !! a = FunGifBlobLiveCache c !! a.
Proof.
  revert c. induction ops as [| op ops IH]; intros c Hall; [reflexivity |].
  inversion Hall as [| ? ? Hop Hrest]; subst. cbn.
  rewrite (IH _ Hrest). apply cacheStep_keeps_live, Hop.
Qed.




(** ** The range extractor *)

Lemma includes_In (x : Z) (l : list Z) : includes x l = true ↔ In x l.
Proof.
  unfold includes. rewrite existsb_exists. split.
  - intros (y & Hy & E). apply Z.eqb_eq in E. subst. exact Hy.
  - intros H. exists x. split; [exact H | apply Z.eqb_refl].
Qed.

(** C6. Whatever range the virtualizer proposes and whatever its own extractor
    makes of it, the list the panel's extractor returns holds index 0 and index
    [count - 1]; this is so for every count, the non-empty ones among them. *)
Theorem rangeExtractor_keeps_ends
    (defaultRangeExtractor : Range → list Z) (count : Z) (range : Range) :
  In 0 (rangeExtractor defaultRangeExtractor count range)
  ∧ In (count - 1) (rangeExtractor defaultRangeExtractor count range).
Proof.
  unfold rangeExtractor.
  set (l0 := defaultRangeExtractor range).
  assert (H0 : In 0 (if negb (includes 0 l0) then 0 :: l0 else l0)).
  { destruct (includes 0 l0) eqn:E; cbn [negb].
    - apply includes_In, E.
    - left. reflexivity. }
  set (l1 := if negb (includes 0 l0) then 0 :: l0 else l0) in *.
  destruct (includes (count - 1) l1) eqn:E; cbn [negb].
  - split; [exact H0 | apply includes_In, E].
  - split; apply in_or_app; [left; exact H0 | right; left; reflexivity].
Qed.

(** Scrolled to the middle of 40 items: the window [12..33], with 0 put in
    front and 39 at the back. *)
Example rangeExtractor_scrolled :
  rangeExtractor plainRangeExtractor 40
      {| startIndex := 20; endIndex := 25; overscan := 8; count := 40 |}
    = 0 :: map (λ i, 12 + Z.of_nat i) (seq 0 22) ++ [39].
Proof. vm_compute. reflexivity. Qed.

(** ** The prefetch effect *)

Lemma prefetchEffect_true_iff (li c : Z) (h p : bool) :
  prefetchEffect li c h p = true
  ↔ li ≠ -1 ∧ c ≠ 0 ∧ h = true ∧ p = false ∧ c - 1 ≤ li + 8.
Proof.
  unfold prefetchEffect, GIF_WATERFALL_COLUMNS.
  destruct (Z.eqb_spec li (-1)), (Z.eqb_spec c 0), h, p; cbn;
    rewrite ?Z.geb_le; intuition (try discriminate; try lia).
Qed.

Lemma runPrefetchEffect_pending (s : Scroller) :
  QueryState.pending (queryState s) = true → runPrefetchEffect s = s.
Proof.
  intros Hp. unfold runPrefetchEffect.
  destruct (prefetchEffect _ _ _ _) eqn:E; [| reflexivity].
  apply prefetchEffect_true_iff in E. destruct E as (_ & _ & _ & E & _). congruence.
Qed.

Lemma scrollTo_pending (s : Scroller) (range : option Range) :
  QueryState.pending (queryState s) = true →
  queryState (scrollTo s range) = queryState s ∧ fetchCalls (scrollTo s range) = fetchCalls s.
Proof.
  intros Hp. unfold scrollTo. destruct (_ =? _); [split; reflexivity |].
  rewrite runPrefetchEffect_pending by exact Hp. cbn. rewrite Bool.eqb_reflx.
  split; reflexivity.
Qed.

Lemma scrollThrough_cons (r : option Range) (ranges : list (option Range)) (s : Scroller) :
  scrollThrough (r :: ranges) s = scrollThrough ranges (scrollTo s r).
Proof. reflexivity. Qed.

Lemma scrollThrough_pending (ranges : list (option Range)) (s : Scroller) :
  QueryState.pending (queryState s) = true →
  fetchCalls (scrollThrough ranges s) = fetchCalls s.
Proof.
  revert s. induction ranges as [| r ranges IH]; intros s Hp; [reflexivity |].
  rewrite scrollThrough_cons. destruct (scrollTo_pending s r Hp) as [Hq Hc].
  rewrite IH by (rewrite Hq; exact Hp). exact Hc.
Qed.

(** One report of the virtualizer while no load is in flight: either nothing
    is fetched and the query state stays, or one fetch starts and a load is in
    flight. *)
Lemma scrollTo_idle (s : Scroller) (range : option Range) :
  QueryState.pending (queryState s) = false →
  let fires :=
    negb (lastIndexOf range =? lastIndex s)
    && prefetchEffect (lastIndexOf range) (countOf (queryState s))
         (QueryState.hasNextPage (queryState s)) false in
  if fires
  then QueryState.pending (queryState (scrollTo s range)) = true
       ∧ fetchCalls (scrollTo s range) = S (fetchCalls s)
  else queryState (scrollTo s range) = queryState s
       ∧ fetchCalls (scrollTo s range) = fetchCalls s
       ∧ (lastIndex (scrollTo s range) = lastIndexOf range).
Proof.
  intros Hp. cbn zeta. unfold scrollTo.
  destruct (Z.eqb_spec (lastIndexOf range) (lastIndex s)) as [E | NE]; cbn [negb andb].
  - repeat split. symmetry. exact E.
  - cbn zeta.
    set (s0 := {| lastIndex := lastIndexOf range; queryState := queryState s;
                  fetchCalls := fetchCalls s |}).
    destruct (prefetchEffect _ _ _ false) eqn:Ef.
    + assert (Hrun : runPrefetchEffect s0
        = {| lastIndex := lastIndexOf range;
             queryState := fetchNextPage (queryState s);
             fetchCalls := S (fetchCalls s) |}).
      { unfold runPrefetchEffect. subst s0. cbn [lastIndex queryState fetchCalls].
        rewrite Hp, Ef. reflexivity. }
      apply prefetchEffect_true_iff in Ef. destruct Ef as (_ & _ & Hh & _ & _).
      assert (Hfetch : QueryState.pending (fetchNextPage (queryState s)) = true).
      { unfold fetchNextPage. rewrite Hp, Hh. reflexivity. }
      rewrite Hrun. subst s0. cbn [queryState]. rewrite Hfetch, Hp. cbn [Bool.eqb].
      rewrite runPrefetchEffect_pending by exact Hfetch. cbn. split; [exact Hfetch | reflexivity].
    + assert (Hrun : runPrefetchEffect s0 = s0).
      { unfold runPrefetchEffect. subst s0. cbn [lastIndex queryState fetchCalls].
        rewrite Hp, Ef. reflexivity. }
      rewrite Hrun. rewrite Bool.eqb_reflx. subst s0. cbn. repeat split.
Qed.

Lemma scrollThrough_at_most_once (ranges : list (option Range)) (s : Scroller) :
  (fetchCalls (scrollThrough ranges s) ≤ S (fetchCalls s))%nat.
Proof.
  revert s. induction ranges as [| r ranges IH]; intros s; [cbn; lia |].
  rewrite scrollThrough_cons. destruct (QueryState.pending (queryState s)) eqn:Hp.
  - destruct (scrollTo_pending s r Hp) as [Hq Hc].
    rewrite scrollThrough_pending by (rewrite Hq; exact Hp). lia.
  - pose proof (scrollTo_idle s r Hp) as H. cbn zeta in H.
    destruct (negb _ && _).
    + destruct H as [Hp' Hc]. rewrite scrollThrough_pending by exact Hp'. lia.
    + destruct H as (_ & Hc & _). specialize (IH (scrollTo s r)). lia.
Qed.

Lemma scrollThrough_forty (ranges : list (option Range)) (s : Scroller) :
  countOf (queryState s) = 40 →
  QueryState.hasNextPage (queryState s) = true →
  QueryState.pending (queryState s) = false →
  lastIndex s < 31 →
  fetchCalls (scrollThrough ranges s)
    = (fetchCalls s + if existsb (λ r, (31 <=? lastIndexOf r)%Z) ranges then 1 else 0)%nat.
Proof.
  revert s. induction ranges as [| r ranges IH]; intros s Hc Hh Hp Hli; [cbn; lia |].
  rewrite scrollThrough_cons. cbn [existsb].
  pose proof (scrollTo_idle s r Hp) as H. cbn zeta in H. rewrite Hc, Hh in H.
  destruct (Z.leb_spec 31 (lastIndexOf r)) as [Hge | Hlt]; cbn [orb].
  - assert (Hf : negb (lastIndexOf r =? lastIndex s)
                 && prefetchEffect (lastIndexOf r) 40 true false = true).
    { apply andb_true_iff. split.
      - apply negb_true_iff, Z.eqb_neq. lia.
      - apply prefetchEffect_true_iff. repeat split; lia. }
    rewrite Hf in H. destruct H as [Hp' Hcalls].
    rewrite scrollThrough_pending by exact Hp'. lia.
  - assert (Hf : negb (lastIndexOf r =? lastIndex s)
                 && prefetchEffect (lastIndexOf r) 40 true false = false).
    { apply andb_false_iff. right. apply not_true_iff_false. intros Ht.
      apply prefetchEffect_true_iff in Ht. lia. }
    rewrite Hf in H. destruct H as (Hq & Hcalls & Hli').
    rewrite IH; rewrite ?Hq; try assumption; lia.
Qed.

(** C5. With a visible range (its end index is an index, so not negative) over
    a non-empty list, the effect calls [fetchNextPage()] exactly when the end
    index plus the overscan of 4 * 2 = 8 reaches [count - 1], more pages exist
    and nothing is pending; with no range yet it does not call.  For 40 items
    this is from end index 31 on.  Through any run of range reports the call is
    made at most once, the load then being in flight; from below the threshold
    of a list of 40 it is made exactly once if some report reaches 31 and not at
    all otherwise. *)
Theorem prefetch_trigger :
  4 * GIF_WATERFALL_COLUMNS = 8
  ∧ (∀ (range : Range) (count : Z) (hasNext pending : bool),
       0 < count → 0 ≤ endIndex range →
       (prefetchEffect (lastIndexOf (Some range)) count hasNext pending = true
        ↔ count - 1 ≤ endIndex range + 8 ∧ hasNext = true ∧ pending = false))
  ∧ (∀ (count : Z) (hasNext pending : bool),
       prefetchEffect (lastIndexOf None) count hasNext pending = false)
  ∧ (∀ (range : Range) (hasNext pending : bool),
       prefetchEffect (lastIndexOf (Some range)) 40 hasNext pending = true
       ↔ 31 ≤ endIndex range ∧ hasNext = true ∧ pending = false)
  ∧ (∀ (ranges : list (option Range)) (s : Scroller),
       (fetchCalls (scrollThrough ranges s) ≤ S (fetchCalls s))%nat)
  ∧ (∀ (ranges : list (option Range)) (s : Scroller),
       countOf (queryState s) = 40 →
       QueryState.hasNextPage (queryState s) = true →
       QueryState.pending (queryState s) = false →
       lastIndex s < 31 →
       fetchCalls (scrollThrough ranges s)
         = (fetchCalls s
            + if existsb (λ r, (31 <=? lastIndexOf r)%Z) ranges then 1 else 0)%nat).
Proof.
  split; [reflexivity |].
  split; [| split; [| split; [| split]]].
  - intros range count hasNext pending Hc He. cbn [lastIndexOf].
    rewrite prefetchEffect_true_iff. intuition lia.
  - intros count hasNext pending. reflexivity.
  - intros range hasNext pending. cbn [lastIndexOf].
    rewrite prefetchEffect_true_iff. intuition lia.
  - exact scrollThrough_at_most_once.
  - exact scrollThrough_forty.
Qed.

(** Forty items, more to come, the view at index 9: reports ending at 20, 31,
    35 and 39 make one call; reports that stay below 31 make none. *)
Lemma prefetch_trigger_witness :
  fetchCalls (scrollThrough
      [rangeEndingAt 20; rangeEndingAt 31; rangeEndingAt 35; rangeEndingAt 39]
      (mkScroller 9 (idleWithItems sampleGif 40) 0)) = 1%nat
  ∧ fetchCalls (scrollThrough [rangeEndingAt 20; rangeEndingAt 30; rangeEndingAt 12]
      (mkScroller 9 (idleWithItems sampleGif 40) 0)) = 0%nat
  ∧ (prefetchEffect (lastIndexOf (rangeEndingAt 31)) 40 true false = true
     ↔ 40 - 1 ≤ 31 + 8 ∧ true = true ∧ false = false).
Proof.
  split; [| split].
  - exact (proj2 (proj2 (proj2 (proj2 (proj2 prefetch_trigger))))
             [rangeEndingAt 20; rangeEndingAt 31; rangeEndingAt 35; rangeEndingAt 39]
             (mkScroller 9 (idleWithItems sampleGif 40) 0)
             eq_refl eq_refl eq_refl eq_refl).
  - exact (proj2 (proj2 (proj2 (proj2 (proj2 prefetch_trigger))))
             [rangeEndingAt 20; rangeEndingAt 30; rangeEndingAt 12]
             (mkScroller 9 (idleWithItems sampleGif 40) 0)
             eq_refl eq_refl eq_refl eq_refl).
  - apply (proj1 (proj2 prefetch_trigger)
             {| startIndex := 26; endIndex := 31; overscan := 8; count := 40 |}
             40 true false); cbn; lia.
Defined.

(** ** The download of one item *)

Section DownloadFacts.
Variable isAbortError : Error → bool.
Variable toLogFormat : Error → string.

Lemma download_rejected (gif : GifType.t) (error : Error) (w : ItemWorld) :
  download isAbortError toLogFormat gif (Rejected error) w =
    if isAbortError error then inl w
    else inl {| caches := caches w;
                errorLog := ("Failed to download gif", toLogFormat error) :: errorLog w;
                src := src w |}.
Proof. unfold download. cbn. destruct (isAbortError error); reflexivity. Qed.

Lemma downloadEffect_settles (gif : GifType.t) (outcome : FetchOutcome) (w : ItemWorld) :
  ∃ w', downloadEffect isAbortError toLogFormat gif outcome w = inl w'.
Proof.
  unfold downloadEffect. destruct (src w); [eexists; reflexivity |].
  unfold download. destruct (downloadTry gif outcome w) as [w' | error].
  - eexists. reflexivity.
  - destruct (isAbortError error); eexists; reflexivity.
Qed.

End DownloadFacts.

(** C8. When the fetch of an item's preview rejects with an abort error, the
    effect leaves everything as it was: no cache is written and nothing is
    logged.  When it rejects with anything else, one entry
    ["Failed to download gif"] is logged, no cache is written, and the item has
    no thumbnail to show.  Either way, and for every outcome of the fetch, the
    download settles without a throw of its own, so nothing reaches the
    panel. *)
Theorem download_failures_stay_local
    (isAbortError : Error → bool) (toLogFormat : Error → string)
    (gif : GifType.t) (error : Error) (w : ItemWorld) :
  (isAbortError error = true →
     downloadEffect isAbortError toLogFormat gif (Rejected error) w = inl w)
  ∧ (isAbortError error = false → src w = None →
     ∃ w', downloadEffect isAbortError toLogFormat gif (Rejected error) w = inl w'
           ∧ caches w' = caches w
           ∧ errorLog w' = ("Failed to download gif", toLogFormat error) :: errorLog w
           ∧ thumbnail w' = None)
  ∧ (∀ outcome, ∃ w', downloadEffect isAbortError toLogFormat gif outcome w = inl w').
Proof.
  split; [| split].
  - intros Ha. unfold downloadEffect. destruct (src w); [reflexivity |].
    rewrite download_rejected, Ha. reflexivity.
  - intros Ha Hs. unfold downloadEffect. rewrite Hs, download_rejected, Ha.
    eexists. split; [reflexivity |]. cbn. repeat split. exact Hs.
  - intros outcome. apply downloadEffect_settles.
Qed.

(** An abort leaves the fresh item alone; a network error adds one log line;
    bytes that arrive are cached and shown. *)
Lemma download_failures_stay_local_witness :
  downloadEffect isAbortByName messageOf sampleGif
      (Rejected (mkError "AbortError" "aborted")) freshItemWorld = inl freshItemWorld
  ∧ (∃ w', downloadEffect isAbortByName messageOf sampleGif
             (Rejected (mkError "TypeError" "Failed to fetch")) freshItemWorld = inl w'
           ∧ caches w' = caches freshItemWorld
           ∧ errorLog w' = [("Failed to download gif", "Failed to fetch")]
           ∧ thumbnail w' = None)
  ∧ downloadEffect isAbortByName messageOf sampleGif (Fulfilled (mkBytes 2048 7)) freshItemWorld
    = inl {| caches := cacheStep initialCaches
                         (Save (mediaAt 1 "preview") (mkBlob [mkBytes 2048 7]));
             errorLog := [];
             src := Some (createObjectURL (mkBlob [mkBytes 2048 7])) |}.
Proof.
  split; [| split].
  - exact (proj1 (download_failures_stay_local isAbortByName messageOf sampleGif
                    (mkError "AbortError" "aborted") freshItemWorld) eq_refl).
  - exact (proj1 (proj2 (download_failures_stay_local isAbortByName messageOf sampleGif
                    (mkError "TypeError" "Failed to fetch") freshItemWorld)) eq_refl eq_refl).
  - reflexivity.
Defined.

(** ** The tab stop *)

Lemma tabIndex_zero (tabbable : bool) : tabIndex tabbable = 0 ↔ tabbable = true.
Proof. destruct tabbable; cbn; split; intros; try reflexivity; discriminate. Qed.

Lemma tab_stops_are_tabbable (sel : option string) (l : list VirtualItem) :
  length (List.filter (Z.eqb 0) (renderedTabIndexes sel l)) = length (tabbableItems sel l).
Proof.
  unfold renderedTabIndexes, tabbableItems.
  induction l as [| item l IH]; [reflexivity |].
  cbn. destruct (isTabbable sel item); cbn; [f_equal |]; exact IH.
Qed.

(** Among items with distinct [f]-values, a test that picks the value [b]
    picks one item if [b] occurs and none if it does not. *)
Lemma filter_by_unique_value {A B : Type} (f : A → B) (p : A → bool) (b : B) (l : list A) :
  (∀ x, p x = true ↔ f x = b) →
  NoDup (map f l) →
  (b ∈ map f l → length (List.filter p l) = 1%nat)
  ∧ (b ∉ map f l → List.filter p l = []).
Proof.
  intros Hp. induction l as [| a l IH]; intros Hnd.
  - split; [intros H; inversion H | reflexivity].
  - cbn in Hnd. apply NoDup_cons in Hnd as [Hnotin Hnd'].
    destruct (IH Hnd') as [IH1 IH0]. cbn [List.filter map].
    destruct (p a) eqn:Ea.
    + apply Hp in Ea. subst b. split.
      * intros _. cbn. rewrite (IH0 Hnotin). reflexivity.
      * intros H. exfalso. apply H. left.
    + assert (f a ≠ b) as Hne.
      { intros E. apply Hp in E. congruence. }
      split.
      * intros H. apply elem_of_cons in H as [E | H]; [congruence | exact (IH1 H)].
      * intros H. apply IH0. intros H'. apply H. right. exact H'.
Qed.

Lemma isTabbable_selected (k : string) (item : VirtualItem) :
  isTabbable (Some k) item = true ↔ key item = k.
Proof. cbn. apply String.eqb_eq. Qed.

Lemma isTabbable_initial (item : VirtualItem) :
  isTabbable None item = true ↔ index item = 0.
Proof. cbn. apply Z.eqb_eq. Qed.

Lemma StronglySorted_snoc (l : list Z) (y : Z) :
  StronglySorted Z.lt l → Forall (λ x, x < y) l → StronglySorted Z.lt (l ++ [y]).
Proof.
  induction 1 as [| a l Hs IH Ha]; intros Hall; cbn.
  - repeat constructor.
  - inversion Hall as [| ? ? Hay Hly]; subst. constructor; [apply IH, Hly |].
    apply Forall_app. split; [exact Ha | constructor; [exact Hay | constructor]].
Qed.

Lemma rangeExtractor_ascending_nodup
    (defaultRangeExtractor : Range → list Z) (count : Z) (range : Range) :
  1 ≤ count →
  ascendingWithin count (defaultRangeExtractor range) →
  ascendingWithin count (rangeExtractor defaultRangeExtractor count range)
  ∧ NoDup (rangeExtractor defaultRangeExtractor count range).
Proof.
  intros Hc [Hs Hb].
  enough (H : ascendingWithin count (rangeExtractor defaultRangeExtractor count range)).
  { split; [exact H |]. destruct H as [H _]. clear -H.
    induction H as [| a l Hl IH Ha]; constructor; [| exact IH].
    intros Hin. rewrite Forall_forall in Ha. specialize (Ha a Hin). lia. }
  unfold rangeExtractor. set (l0 := defaultRangeExtractor range) in *.
  assert (H1 : ascendingWithin count (if negb (includes 0 l0) then 0 :: l0 else l0)).
  { destruct (includes 0 l0) eqn:E0; cbn [negb]; [split; assumption |].
    split.
    - constructor; [exact Hs |]. rewrite Forall_forall in *. intros x Hx.
      assert (x ≠ 0).
      { intros ->. apply list_elem_of_In, includes_In in Hx. congruence. }
      specialize (Hb x Hx). lia.
    - constructor; [lia | exact Hb]. }
  set (l1 := if negb (includes 0 l0) then 0 :: l0 else l0) in *.
  destruct H1 as [Hs1 Hb1].
  destruct (includes (count - 1) l1) eqn:E1; cbn [negb]; [split; assumption |].
  split.
  - apply StronglySorted_snoc; [exact Hs1 |]. rewrite Forall_forall in *. intros x Hx.
    assert (x ≠ count - 1).
    { intros ->. apply list_elem_of_In, includes_In in Hx. congruence. }
    specialize (Hb1 x Hx). lia.
  - apply Forall_app. split; [exact Hb1 | constructor; [lia | constructor]].
Qed.

Lemma rangeExtractor_has_first
    (defaultRangeExtractor : Range → list Z) (count : Z) (range : Range) :
  In 0 (rangeExtractor defaultRangeExtractor count range).
Proof.
  unfold rangeExtractor. set (l0 := defaultRangeExtractor range).
  assert (H0 : In 0 (if negb (includes 0 l0) then 0 :: l0 else l0)).
  { destruct (includes 0 l0) eqn:E; cbn [negb]; [apply includes_In, E | left; reflexivity]. }
  destruct (negb (includes (count - 1) _)); [apply in_or_app; left |]; exact H0.
Qed.

(** C9, as amended.  Every rendered item gets tab index 0 or -1, and 0 exactly
    when [isTabbable] holds of it.  While no key is selected, the tab stops are
    the rendered items at index 0: exactly one when index 0 is rendered and no
    index is rendered twice, and none when index 0 is not rendered, as while
    nothing is rendered at all.  The first case is at hand whenever the
    rendered indexes are those the panel's range extractor returns for a list
    of at least one item and an ascending list of indexes of that list from
    the virtualizer's own extractor.  Once a key is selected, the tab stops
    are the rendered items with that key: exactly one if keys are distinct and
    the key is among the rendered ones, and none at all if it is not. *)
Theorem roving_tab_stop :
  (∀ (sel : option string) (item : VirtualItem),
     (tabIndex (isTabbable sel item) = 0 ∨ tabIndex (isTabbable sel item) = -1)
     ∧ (tabIndex (isTabbable sel item) = 0 ↔ isTabbable sel item = true))
  ∧ (∀ virtualItems : list VirtualItem,
       NoDup (map index virtualItems) →
       0 ∈ map index virtualItems →
       oneTabStop None virtualItems
       ∧ ∀ item, isTabbable None item = true ↔ index item = 0)
  ∧ (∀ (selected : string) (virtualItems : list VirtualItem),
       NoDup (map key virtualItems) →
       selected ∈ map key virtualItems →
       oneTabStop (Some selected) virtualItems
       ∧ ∀ item, isTabbable (Some selected) item = true ↔ key item = selected)
  ∧ (∀ (selected : string) (virtualItems : list VirtualItem),
       selected ∉ map key virtualItems →
       tabbableItems (Some selected) virtualItems = []
       ∧ renderedTabIndexes (Some selected) virtualItems
         = repeat (-1) (length virtualItems))
  ∧ (∀ virtualItems : list VirtualItem,
       0 ∉ map index virtualItems →
       tabbableItems None virtualItems = []
       ∧ renderedTabIndexes None virtualItems = repeat (-1) (length virtualItems))
  ∧ (∀ (defaultRangeExtractor : Range → list Z) (count : Z) (range : Range)
       (virtualItems : list VirtualItem),
       1 ≤ count →
       ascendingWithin count (defaultRangeExtractor range) →
       map index virtualItems = rangeExtractor defaultRangeExtractor count range →
       oneTabStop None virtualItems).
Proof.
  assert (Hnone : ∀ (sel : option string) (l : list VirtualItem),
            (∀ item, item ∈ l → isTabbable sel item = false) →
            tabbableItems sel l = []
            ∧ renderedTabIndexes sel l = repeat (-1) (length l)).
  { intros sel l Hall. unfold tabbableItems, renderedTabIndexes.
    induction l as [| a l IH]; [split; reflexivity |].
    assert (Ha : isTabbable sel a = false) by (apply Hall; left).
    destruct IH as [IH1 IH2]; [intros item Hin; apply Hall; right; exact Hin |].
    cbn [List.filter map length repeat]. rewrite Ha. cbn [tabIndex].
    split; [exact IH1 | f_equal; exact IH2]. }
  assert (Hone : ∀ l : list VirtualItem,
            NoDup (map index l) → 0 ∈ map index l → oneTabStop None l).
  { intros l Hnd H0. unfold oneTabStop. rewrite tab_stops_are_tabbable.
    apply (filter_by_unique_value index (isTabbable None) 0 l isTabbable_initial Hnd), H0. }
  split; [| split; [| split; [| split; [| split]]]].
  - intros sel item. split; [destruct (isTabbable sel item); cbn; auto | apply tabIndex_zero].
  - intros l Hnd H0. split; [apply Hone; assumption | apply isTabbable_initial].
  - intros k l Hnd Hk. split; [| apply isTabbable_selected].
    unfold oneTabStop. rewrite tab_stops_are_tabbable.
    apply (filter_by_unique_value key (isTabbable (Some k)) k l (isTabbable_selected k) Hnd), Hk.
  - intros k l Hk. apply Hnone.
    intros item Hin. apply not_true_iff_false. intros Ht.
    apply isTabbable_selected in Ht. apply Hk. subst k.
    apply list_elem_of_fmap. exists item. split; [reflexivity | exact Hin].
  - intros l H0. apply Hnone.
    intros item Hin. apply not_true_iff_false. intros Ht.
    apply isTabbable_initial in Ht. apply H0. rewrite <- Ht.
    apply list_elem_of_fmap. exists item. split; [reflexivity | exact Hin].
  - intros d count range l Hc Hasc Hidx. apply Hone; rewrite Hidx.
    + apply (rangeExtractor_ascending_nodup d count range Hc Hasc).
    + apply list_elem_of_In, rangeExtractor_has_first.
Qed.

(** The user put the focus on item 5 with the keyboard and then scrolled down
    with the wheel: item 5 is no longer rendered, and none of the 19 rendered
    items can be reached with Tab.  And while the virtualizer renders nothing,
    there is no tab stop either. *)
Lemma tab_stop_counterexample :
  length scrolledDownItems = 19%nat
  ∧ handleKeyboardStateChange (Some "gif-5") None = Some "gif-5"
  ∧ renderedTabIndexes (Some "gif-5") scrolledDownItems = repeat (-1) 19
  ∧ ¬ oneTabStop (Some "gif-5") scrolledDownItems
  ∧ ¬ oneTabStop None [].
Proof.
  split; [vm_compute; reflexivity |].
  split; [reflexivity |].
  split; [vm_compute; reflexivity |].
  split; unfold oneTabStop; vm_compute; discriminate.
Qed.

(** The same view before any key was selected, and with item 30 selected; the
    view is what the range extractor gives for the window 22..39 of 40
    items. *)
Lemma roving_tab_stop_witness :
  oneTabStop None scrolledDownItems
  ∧ oneTabStop (Some "gif-30") scrolledDownItems
  ∧ tabbableItems (Some "gif-30") scrolledDownItems = [sampleVirtualItem 30]
  ∧ tabbableItems (Some "gif-5") scrolledDownItems = []
  ∧ tabbableItems None [sampleVirtualItem 7; sampleVirtualItem 8] = []
  ∧ oneTabStop None scrolledDownItems.
Proof.
  split; [| split; [| split; [| split; [| split]]]].
  - apply (proj1 (proj2 roving_tab_stop) scrolledDownItems).
    + apply (bool_decide_unpack _). vm_compute. exact I.
    + apply (bool_decide_unpack _). vm_compute. exact I.
  - apply (proj1 (proj2 (proj2 roving_tab_stop)) "gif-30" scrolledDownItems).
    + apply (bool_decide_unpack _). vm_compute. exact I.
    + apply (bool_decide_unpack _). vm_compute. exact I.
  - vm_compute. reflexivity.
  - apply (proj1 (proj2 (proj2 (proj2 roving_tab_stop))) "gif-5" scrolledDownItems).
    apply (bool_decide_unpack _). vm_compute. exact I.
  - apply (proj1 (proj2 (proj2 (proj2 (proj2 roving_tab_stop))))
             [sampleVirtualItem 7; sampleVirtualItem 8]).
    apply (bool_decide_unpack _). vm_compute. exact I.
  - apply (proj2 (proj2 (proj2 (proj2 (proj2 roving_tab_stop)))) plainRangeExtractor 40
             {| startIndex := 30; endIndex := 37; overscan := 8; count := 40 |}
             scrolledDownItems).
    + lia.
    + split.
      * vm_compute. repeat (constructor; [| repeat (constructor; [reflexivity |]); constructor]).
        constructor.
      * vm_compute. repeat (constructor; [split; discriminate |]). constructor.
    + vm_compute. reflexivity.
Defined.

(** ** The debounced query *)

Lemma debounceEffect_spec (debounced query : GifsQuery) :
  debounceEffect debounced (searchQuery query) (selectedSection query) =
    if decide (debounced = query) then Skip
    else if String.eqb (searchQuery query) "" then SetNow query
    else SetLater query 500.
Proof.
  unfold debounceEffect. destruct debounced as [ds dt], query as [qs qt]. cbn.
  destruct (String.eqb_spec dt qt) as [Et | Nt]; cbn.
  - destruct (decide (ds = qs)) as [Es | Ns].
    + rewrite bool_decide_eq_true_2 by exact Es. subst.
      rewrite decide_True by reflexivity. reflexivity.
    + rewrite bool_decide_eq_false_2 by exact Ns.
      rewrite decide_False by congruence. reflexivity.
  - rewrite decide_False by congruence. reflexivity.
Qed.

(** One repeat is all a render ever needs: after [setDebouncedQuery] the
    effect returns early. *)
Lemma render_spec (fuel : nat) (s : Controller) :
  render (S fuel) s =
    if decide (debouncedQuery s = requested s) then clearTimeout s
    else if String.eqb (searchQuery (requested s)) ""
    then clearTimeout (setDebouncedQuery (requested s) (clearTimeout s))
    else setTimeout (requested s) 500 (clearTimeout s).
Proof.
  cbn [render]. cbn [clearTimeout debouncedQuery requested].
  rewrite debounceEffect_spec.
  destruct (decide (debouncedQuery s = requested s)) as [E | NE]; [reflexivity |].
  destruct (String.eqb (searchQuery (requested s)) ""); [| reflexivity].
  destruct fuel as [| fuel]; cbn [render];
    cbn [clearTimeout setDebouncedQuery debouncedQuery requested];
    rewrite debounceEffect_spec, decide_True by reflexivity; reflexivity.
Qed.

Lemma run_app (evs1 evs2 : list Event) (s : Controller) :
  run (evs1 ++ evs2) s = run evs2 (run evs1 s).
Proof. apply fold_left_app. Qed.

Lemma timelineOf_snoc (q0 : GifsQuery) (evs : list Event) (e : Event) :
  timelineOf q0 (evs ++ [e]) = timelineStep (timelineOf q0 evs) e.
Proof. unfold timelineOf. rewrite fold_left_app. reflexivity. Qed.

Ltac settle :=
  unfold settled; cbn;
  repeat match goal with
         | |- _ ∧ _ => split
         end;
  try (assumption || lia || congruence).

(** The invariant of the controller, and what each event may apply. *)
Lemma step_settled (s : Controller) (tl : Timeline) (e : Event) :
  settled s tl →
  settled (step s e) (timelineStep tl e) ∧ appliedBy e (timelineStep tl e) s (step s e).
Proof.
  intros (Hnow & Hreq & Htimer). destruct e as [q |]; cbn [step timelineStep].
  - unfold change. rewrite <- Hreq.
    destruct (decide (q = requested s)) as [E | NE].
    + rewrite !bool_decide_eq_true_2 by exact E.
      split; [settle | left; reflexivity].
    + rewrite !bool_decide_eq_false_2 by exact NE.
      rewrite render_spec. cbn [debouncedQuery requested].
      destruct (decide (debouncedQuery s = q)) as [Ed | Nd].
      * split; [settle | left; reflexivity].
      * destruct (String.eqb_spec (searchQuery q) "") as [Et | Nt].
        -- split; [settle |].
           right. exists q. cbn. rewrite Hnow. repeat split. left. repeat split. exact Et.
        -- split; [settle | left; reflexivity].
  - unfold tick. cbn [timeout now].
    destruct (timeout s) as [[due q] |] eqn:Et.
    + destruct Htimer as (Hq & Htext & Hdue & Hlt).
      destruct (Nat.leb_spec due (S (now s))) as [Hfire | Hwait].
      * rewrite render_spec.
        cbn [setDebouncedQuery clearTimeout debouncedQuery requested now timeout applied].
        rewrite decide_True by exact Hq.
        split; [settle |].
        right. exists q. cbn. rewrite Hnow. repeat split.
        -- rewrite <- Hreq. exact Hq.
        -- right. repeat split; [exact Htext | lia].
      * split; [| left; reflexivity].
        settle.
    + split; [| left; reflexivity].
      settle.
Qed.

Lemma run_settled (q0 : GifsQuery) (evs : list Event) :
  settled (run evs (mount q0)) (timelineOf q0 evs).
Proof.
  induction evs as [| e evs IH] using rev_ind.
  - repeat split.
  - rewrite run_app, timelineOf_snoc. cbn [run fold_left].
    apply step_settled, IH.
Qed.

(** A change to a non-empty text, away from what is requested and what is
    applied: nothing is applied yet and the timer is set anew. *)
Lemma change_defers (q : GifsQuery) (s : Controller) :
  searchQuery q ≠ "" → q ≠ requested s → q ≠ debouncedQuery s →
  change q s = {| now := now s; requested := q; debouncedQuery := debouncedQuery s;
                  timeout := Some ((now s + 500)%nat, q); applied := applied s |}.
Proof.
  intros Ht Hr Hd. unfold change. rewrite bool_decide_eq_false_2 by exact Hr.
  rewrite render_spec. cbn [debouncedQuery requested].
  rewrite decide_False by congruence.
  destruct (String.eqb_spec (searchQuery q) ""); [contradiction | reflexivity].
Qed.

Lemma later_later (a b : nat) (s : Controller) :
  later b (later a s) = later (a + b) s.
Proof. unfold later; cbn. f_equal. lia. Qed.

Lemma elapse_waiting (ms due : nat) (q : GifsQuery) (s : Controller) :
  timeout s = Some (due, q) → (now s + ms < due)%nat →
  run (elapse ms) s = later ms s.
Proof.
  revert s. induction ms as [| ms IH]; intros s Ht Hlt.
  - destruct s; unfold later; cbn. f_equal. lia.
  - cbn [elapse repeat run fold_left step]. fold (elapse ms). fold (run (elapse ms) (tick s)).
    assert (Htick : tick s = later 1 s).
    { unfold tick. cbn [timeout now]. rewrite Ht.
      destruct (Nat.leb_spec due (S (now s))); [lia |].
      unfold later. f_equal; (lia || congruence). }
    rewrite Htick, IH; [| exact Ht | cbn; lia].
    rewrite later_later. reflexivity.
Qed.

Lemma elapse_idle (ms : nat) (s : Controller) :
  timeout s = None → run (elapse ms) s = later ms s.
Proof.
  revert s. induction ms as [| ms IH]; intros s Ht.
  - destruct s; unfold later; cbn. f_equal. lia.
  - cbn [elapse repeat run fold_left step]. fold (elapse ms). fold (run (elapse ms) (tick s)).
    assert (Htick : tick s = later 1 s).
    { unfold tick. cbn [timeout now]. rewrite Ht. unfold later. f_equal; (lia || congruence). }
    rewrite Htick, IH by exact Ht. rewrite later_later. reflexivity.
Qed.

Lemma tick_fires (q : GifsQuery) (s : Controller) :
  timeout s = Some (S (now s), q) → requested s = q →
  tick s = {| now := S (now s); requested := q; debouncedQuery := q;
              timeout := None; applied := (S (now s), q) :: applied s |}.
Proof.
  intros Ht Hr. unfold tick. cbn [timeout now]. rewrite Ht.
  rewrite Nat.leb_refl, render_spec.
  cbn [setDebouncedQuery clearTimeout debouncedQuery requested now timeout applied].
  rewrite decide_True by (symmetry; exact Hr). rewrite Hr. reflexivity.
Qed.

Lemma run_tick (s : Controller) : run (elapse 1) s = tick s.
Proof. reflexivity. Qed.

(** The timer armed by a deferred change holds for 499 ms and fires on the
    500th. *)
Lemma elapse_after_change (q : GifsQuery) (s : Controller) (ms : nat) :
  searchQuery q ≠ "" → q ≠ requested s → q ≠ debouncedQuery s →
  run (elapse ms) (change q s) =
    if (ms <? 500)%nat
    then {| now := (now s + ms)%nat; requested := q; debouncedQuery := debouncedQuery s;
            timeout := Some ((now s + 500)%nat, q); applied := applied s |}
    else {| now := (now s + ms)%nat; requested := q; debouncedQuery := q;
            timeout := None; applied := ((now s + 500)%nat, q) :: applied s |}.
Proof.
  intros Ht Hr Hd. rewrite (change_defers q s Ht Hr Hd).
  destruct (Nat.ltb_spec ms 500) as [Hlt | Hge].
  - rewrite (elapse_waiting ms (now s + 500) q); [reflexivity | reflexivity | cbn; lia].
  - replace ms with (499 + (1 + (ms - 500)))%nat at 1 by lia.
    unfold elapse. rewrite !repeat_app. fold (elapse 499) (elapse 1) (elapse (ms - 500)).
    rewrite !run_app.
    rewrite (elapse_waiting 499 (now s + 500) q); [| reflexivity | cbn; lia].
    rewrite run_tick.
    rewrite (tick_fires q); [| cbn; f_equal; f_equal; lia | reflexivity].
    rewrite elapse_idle by reflexivity.
    unfold later; cbn. f_equal; [lia | do 2 f_equal; lia].
Qed.

(** C1. On a clock of milliseconds, from the moment the panel is mounted and
    through every sequence of changes of the search text or section and of
    ticks:
    - a change to an empty search text leaves the debounced query equal to the
      requested one at once, with no timer pending;
    - a change to a new query with a non-empty text applies nothing and sets
      the timer to 500 ms from now, whatever timer was pending before; with no
      further change nothing is applied during the first 499 ms and the query
      is applied at 500 ms, once;
    - whenever an event makes the controller apply a query, that query is the
      one requested at that moment, and it is applied either by the change that
      asked for it, its text being empty, or by the tick that completes 500 ms
      since it was asked for; so a text that was replaced within 500 ms never
      reaches the loader. *)
Theorem debounced_query_policy :
  (∀ (q0 : GifsQuery) (evs : list Event) (section : FunGifsSection),
     let s' := run (evs ++ [Change (mkQuery section "")]) (mount q0) in
     debouncedQuery s' = mkQuery section "" ∧ timeout s' = None)
  ∧ (∀ (s : Controller) (q : GifsQuery) (ms : nat),
       searchQuery q ≠ "" → q ≠ requested s → q ≠ debouncedQuery s →
       debouncedQuery (change q s) = debouncedQuery s
       ∧ applied (change q s) = applied s
       ∧ timeout (change q s) = Some ((now s + 500)%nat, q)
       ∧ ((ms < 500)%nat →
          debouncedQuery (run (elapse ms) (change q s)) = debouncedQuery s
          ∧ applied (run (elapse ms) (change q s)) = applied s)
       ∧ ((500 ≤ ms)%nat →
          debouncedQuery (run (elapse ms) (change q s)) = q
          ∧ applied (run (elapse ms) (change q s)) = ((now s + 500)%nat, q) :: applied s))
  ∧ (∀ (q0 : GifsQuery) (evs : list Event) (e : Event),
       appliedBy e (timelineOf q0 (evs ++ [e]))
         (run evs (mount q0)) (run (evs ++ [e]) (mount q0))).
Proof.
  split; [| split].
  - intros q0 evs section s'.
    pose proof (run_settled q0 (evs ++ [Change (mkQuery section "")])) as (_ & Hreq & Htimer).
    fold s' in Hreq, Htimer.
    assert (Hcur : current (timelineOf q0 (evs ++ [Change (mkQuery section "")]))
                   = mkQuery section "").
    { rewrite timelineOf_snoc. cbn. destruct (decide (mkQuery section "" = current (timelineOf q0 evs))) as [E | NE].
      - rewrite bool_decide_eq_true_2 by exact E. symmetry. exact E.
      - rewrite bool_decide_eq_false_2 by exact NE. reflexivity. }
    rewrite Hcur in Hreq.
    destruct (timeout s') as [[due q] |].
    + destruct Htimer as (Hq & Htext & _). rewrite Hq, Hreq in Htext. cbn in Htext. congruence.
    + split; [congruence | reflexivity].
  - intros s q ms Ht Hr Hd.
    pose proof (elapse_after_change q s ms Ht Hr Hd) as Hrun.
    rewrite (change_defers q s Ht Hr Hd) in *. cbn [debouncedQuery applied timeout].
    split; [reflexivity | split; [reflexivity | split; [reflexivity | split]]].
    + intros Hlt. apply Nat.ltb_lt in Hlt. rewrite Hlt in Hrun. rewrite Hrun. split; reflexivity.
    + intros Hge. apply Nat.ltb_ge in Hge. rewrite Hge in Hrun. rewrite Hrun. split; reflexivity.
  - intros q0 evs e. rewrite run_app, timelineOf_snoc.
    apply (step_settled _ _ e (run_settled q0 evs)).
Qed.

(** "cat", then "cats" 300 ms later: 499 ms after that nothing has been
    applied; at 500 ms "cats" is, at time 800, and "cat" never was.  Clearing
    the text then applies the recents query on the spot. *)
Lemma debounced_query_policy_witness :
  (searchQuery catsQuery ≠ "" ∧ catsQuery ≠ requested typedCat
   ∧ catsQuery ≠ debouncedQuery typedCat)
  ∧ timeout (change catsQuery typedCat) = Some (800%nat, catsQuery)
  ∧ applied (run (elapse 499) (change catsQuery typedCat)) = []
  ∧ applied (run (elapse 500) (change catsQuery typedCat)) = [(800%nat, catsQuery)]
  ∧ debouncedQuery (run (elapse 500) (change catsQuery typedCat)) = catsQuery
  ∧ applied (run (Change catQuery :: elapse 300 ++ Change catsQuery :: elapse 500
                  ++ [Change (mkQuery Recents "")]) (mount trendingQuery))
    = [(800%nat, mkQuery Recents ""); (800%nat, catsQuery)].
Proof.
  assert (H1 : searchQuery catsQuery ≠ "") by discriminate.
  assert (H2 : catsQuery ≠ requested typedCat) by (vm_compute; discriminate).
  assert (H3 : catsQuery ≠ debouncedQuery typedCat) by (vm_compute; discriminate).
  split; [repeat split; assumption |].
  destruct (proj1 (proj2 debounced_query_policy) typedCat catsQuery 499%nat H1 H2 H3)
    as (_ & _ & Htimer & Hearly & _).
  destruct (proj1 (proj2 debounced_query_policy) typedCat catsQuery 500%nat H1 H2 H3)
    as (_ & _ & _ & _ & Hlate).
  split; [exact Htimer |].
  split; [apply Hearly; lia |].
  split; [apply Hlate; lia |].
  split; [apply Hlate; lia |].
  vm_compute. reflexivity.
Defined.

(* ===================================================================== *)
(** * Part III: further properties of the panel                           *)
(* ===================================================================== *)

(** ** Typing and selecting *)

Lemma requestedQuery_after_typing (trim : string → string) (recentGifs : list GifType.t)
    (ctx : FunContext) (nextSearchInput : string) :
  requestedQuery trim
      (fold_left notify (handleSearchInputChange trim recentGifs nextSearchInput) ctx)
    = {| selectedSection :=
           if negb (String.eqb (trim nextSearchInput) "") then SearchResults
           else if (0 <? length recentGifs)%nat then Recents else Trending;
         searchQuery := trim nextSearchInput |}.
Proof.
  unfold handleSearchInputChange, requestedQuery.
  destruct (negb _); [reflexivity |]. destruct (_ <? _)%nat; reflexivity.
Qed.

Lemma requestedQuery_after_selecting (trim : string → string) (ctx : FunContext)
    (key : FunGifsSection) :
  requestedQuery trim (fold_left notify (handleSelectSection key) ctx)
    = {| selectedSection := key; searchQuery := trim (searchInput ctx) |}.
Proof. reflexivity. Qed.

Lemma dispatchable_never_throws (recentGifs : list GifType.t) (q : GifsQuery)
    (prev : option GifsPaginated) (signal : AbortSignal) :
  dispatchable q → throws (loader recentGifs q prev signal) = false.
Proof.
  intros [Htext | Hsec].
  - rewrite loader_searching by exact Htext. reflexivity.
  - destruct (decide (searchQuery q = "")) as [E | NE].
    + destruct q as [s t]; cbn in E, Hsec; subst t. rewrite loader_browsing.
      repeat (destruct Hsec as [<- | Hsec]; [reflexivity |]). destruct Hsec.
    + rewrite loader_searching by exact NE. reflexivity.
Qed.

(** X1. Whatever is typed into the search box, the query the panel asks for
    next is one the loader serves: a text that is not blank goes to the search
    fetch with the trimmed text; a blank text resolves to the recent gifs when
    there are any, and to the featured fetch when there are none.  The loader
    never throws on it. *)
Theorem typing_is_dispatched
    (trim : string → string) (recentGifs : list GifType.t) (ctx : FunContext)
    (nextSearchInput : string) (prev : option GifsPaginated) (signal : AbortSignal) :
  let q := requestedQuery trim
             (fold_left notify (handleSearchInputChange trim recentGifs nextSearchInput) ctx) in
  let out := loader recentGifs q prev signal in
  throws out = false
  ∧ (trim nextSearchInput ≠ "" →
     out = CallFetchGifsSearch (trim nextSearchInput) (limitOf (cursorOf prev)) (cursorOf prev) signal)
  ∧ (trim nextSearchInput = "" → recentGifs ≠ [] →
     out = Resolved {| next := None; gifs := recentGifs |})
  ∧ (trim nextSearchInput = "" → recentGifs = [] →
     out = CallFetchGifsFeatured (limitOf (cursorOf prev)) (cursorOf prev) signal).
Proof.
  intros q out. subst out q. rewrite requestedQuery_after_typing.
  destruct (String.eqb_spec (trim nextSearchInput) "") as [E | NE]; cbn [negb].
  - rewrite E. destruct recentGifs as [| g rest]; cbn [length Nat.ltb Nat.leb];
      rewrite loader_browsing; repeat split; try reflexivity; try congruence.
  - rewrite loader_searching by exact NE. cbn [searchQuery].
    repeat split; try reflexivity; congruence.
Qed.

(** Typing cats with spaces around it searches for cats; clearing the box with
    one recent gif shows the recent gifs, and with none asks for the featured
    ones. *)
Lemma typing_is_dispatched_witness :
  loader [] (requestedQuery trimSpaces
      (fold_left notify (handleSearchInputChange trimSpaces [] " cats  ") (mkContext "" Trending)))
    None 1%positive = CallFetchGifsSearch "cats" 10 None 1%positive
  ∧ loader [sampleGif] (requestedQuery trimSpaces
      (fold_left notify (handleSearchInputChange trimSpaces [sampleGif] "  ")
         (mkContext "cats" SearchResults)))
    None 1%positive = Resolved {| next := None; gifs := [sampleGif] |}
  ∧ loader [] (requestedQuery trimSpaces
      (fold_left notify (handleSearchInputChange trimSpaces [] "")
         (mkContext "cats" SearchResults)))
    None 1%positive = CallFetchGifsFeatured 10 None 1%positive.
Proof.
  split; [| split].
  - apply (proj1 (proj2 (typing_is_dispatched trimSpaces [] (mkContext "" Trending)
                           " cats  " None 1%positive))).
    vm_compute. discriminate.
  - apply (proj1 (proj2 (proj2 (typing_is_dispatched trimSpaces [sampleGif]
                           (mkContext "cats" SearchResults) "  " None 1%positive)))).
    + vm_compute. reflexivity.
    + discriminate.
  - apply (proj2 (proj2 (proj2 (typing_is_dispatched trimSpaces []
                           (mkContext "cats" SearchResults) "" None 1%positive))));
      reflexivity.
Defined.

Ltac controller_all :=
  unfold controllerAll; cbn;
  repeat match goal with
         | |- _ ∧ _ => split
         end;
  try assumption;
  try (intros ? ? [=]; subst; assumption);
  try (repeat constructor; assumption).

(** A property of queries that holds of all a controller holds keeps holding
    when the controller is asked for a query that has it, and when time
    passes. *)
Lemma change_controllerAll (P : GifsQuery → Prop) (q : GifsQuery) (c : Controller) :
  P q → controllerAll P c → controllerAll P (change q c).
Proof.
  intros Hq (Hr & Hd & Ht & Ha). unfold change.
  destruct (bool_decide (q = requested c)); [controller_all |].
  rewrite render_spec. cbn [debouncedQuery requested].
  destruct (decide (debouncedQuery c = q)); [controller_all |].
  destruct (String.eqb (searchQuery q) ""); controller_all.
Qed.

Lemma tick_controllerAll (P : GifsQuery → Prop) (c : Controller) :
  controllerAll P c → controllerAll P (tick c).
Proof.
  intros (Hr & Hd & Ht & Ha). unfold tick. cbn [timeout now].
  destruct (timeout c) as [[due q] |] eqn:E; [| controller_all].
  pose proof (Ht due q eq_refl) as Hq.
  destruct (due <=? S (now c))%nat; [| controller_all].
  rewrite render_spec.
  cbn [setDebouncedQuery clearTimeout debouncedQuery requested now timeout applied].
  destruct (decide (q = requested c)); [controller_all |].
  destruct (String.eqb (searchQuery (requested c)) ""); controller_all.
Qed.

Lemma subNavItems_dispatchable (recentGifs : list GifType.t) (key : FunGifsSection) (text : string) :
  In key (subNavItems recentGifs) → dispatchable (mkQuery key text).
Proof.
  intros H. right. cbn [selectedSection]. unfold subNavItems in H.
  apply in_app_or in H as [H | H].
  - destruct (_ <? _)%nat; [| destruct H]. destruct H as [<- | []]. left. reflexivity.
  - right. exact H.
Qed.

Lemma typed_dispatchable (trim : string → string) (recentGifs : list GifType.t)
    (ctx : FunContext) (nextSearchInput : string) :
  dispatchable (requestedQuery trim
    (fold_left notify (handleSearchInputChange trim recentGifs nextSearchInput) ctx)).
Proof.
  rewrite requestedQuery_after_typing.
  destruct (String.eqb_spec (trim nextSearchInput) "") as [E | NE]; cbn [negb].
  - right. cbn [selectedSection]. destruct (0 <? length recentGifs)%nat; cbn; auto.
  - left. exact NE.
Qed.

Lemma sessionStep_dispatchable (trim : string → string) (recentGifs : list GifType.t)
    (s : Session) (e : UserEvent) :
  offered recentGifs e →
  controllerAll dispatchable (controller s) →
  controllerAll dispatchable (controller (sessionStep trim recentGifs s e)).
Proof.
  intros He Hc. destruct e as [input | key |]; cbn [sessionStep controller].
  - apply change_controllerAll; [apply typed_dispatchable | exact Hc].
  - apply change_controllerAll; [| exact Hc].
    rewrite requestedQuery_after_selecting. apply subNavItems_dispatchable with recentGifs, He.
  - apply tick_controllerAll, Hc.
Qed.

Lemma sessionRun_dispatchable (trim : string → string) (recentGifs : list GifType.t)
    (events : list UserEvent) (s : Session) :
  Forall (offered recentGifs) events →
  controllerAll dispatchable (controller s) →
  controllerAll dispatchable (controller (sessionRun trim recentGifs events s)).
Proof.
  revert s. induction events as [| e events IH]; intros s Hall Hc; [exact Hc |].
  inversion Hall as [| ? ? He Hrest]; subst. cbn.
  apply IH; [exact Hrest |]. apply sessionStep_dispatchable; assumption.
Qed.

(** X2. The panel is opened on a query the loader serves (a search text, or a
    section of the sub-navigation).  Then, through any sequence of typing into
    the search box, selecting items of the sub-navigation and waiting, every
    query the loader is ever given is one it serves: no call of the loader
    throws. *)
Theorem session_never_breaks_loader
    (trim : string → string) (recentGifs : list GifType.t) (ctx : FunContext)
    (events : list UserEvent) (q : GifsQuery)
    (prev : option GifsPaginated) (signal : AbortSignal) :
  dispatchable (requestedQuery trim ctx) →
  Forall (offered recentGifs) events →
  In q (queriesSeen (requestedQuery trim ctx)
          (controller (sessionRun trim recentGifs events (openPanel trim ctx)))) →
  throws (loader recentGifs q prev signal) = false.
Proof.
  intros H0 Hall Hin. apply dispatchable_never_throws.
  assert (Hinit : controllerAll dispatchable (controller (openPanel trim ctx))).
  { repeat split; cbn; try assumption; [intros ? ? [=] | constructor]. }
  destruct (sessionRun_dispatchable trim recentGifs events _ Hall Hinit) as (_ & _ & _ & Ha).
  unfold queriesSeen in Hin. apply in_app_or in Hin as [Hin | [<- | []]]; [| exact H0].
  rewrite Forall_forall in Ha. apply Ha. apply list_elem_of_In. exact Hin.
Qed.

(** Typing c and ca, picking Love while the search is still pending, waiting
    out the delay and clearing the box: the loader gets trending, then the
    search for ca, then trending again. *)
Lemma session_never_breaks_loader_witness :
  queriesSeen (requestedQuery trimSpaces (mkContext "" Trending))
    (controller (sessionRun trimSpaces []
       ([Typed "c"; Waited; Typed "ca"; Selected Love] ++ repeat Waited 500 ++ [Typed " "])
       (openPanel trimSpaces (mkContext "" Trending))))
    = [mkQuery Trending ""; mkQuery Love "ca"; mkQuery Trending ""]
  ∧ throws (loader [] (mkQuery Love "ca") None 1%positive) = false.
Proof.
  split; [vm_compute; reflexivity |].
  apply (session_never_breaks_loader trimSpaces [] (mkContext "" Trending)
           ([Typed "c"; Waited; Typed "ca"; Selected Love] ++ repeat Waited 500 ++ [Typed " "])).
  - right. cbn. auto.
  - apply Forall_app. split; [repeat (apply List.Forall_cons; [cbn; auto 10 |]); apply List.Forall_nil |].
    apply Forall_app. split; [| repeat constructor].
    apply Forall_forall. intros x Hx. apply list_elem_of_In, repeat_spec in Hx. subst. exact I.
  - vm_compute. auto.
Defined.

(** ** More on the debounced query *)

Lemma change_back (s : Controller) :
  debouncedQuery s ≠ requested s →
  change (debouncedQuery s) s =
    {| now := now s; requested := debouncedQuery s; debouncedQuery := debouncedQuery s;
       timeout := None; applied := applied s |}.
Proof.
  intros Hne. unfold change. rewrite bool_decide_eq_false_2 by exact Hne.
  rewrite render_spec. cbn [debouncedQuery requested].
  rewrite decide_True by reflexivity. reflexivity.
Qed.

(** X3. Going back to the query that is already applied, while another one is
    waiting for its timer, cancels the timer and applies nothing, now or later:
    typing and deleting again before the delay is over costs no call of the
    loader. *)
Theorem change_back_cancels (s : Controller) (ms : nat) :
  debouncedQuery s ≠ requested s →
  timeout (change (debouncedQuery s) s) = None
  ∧ applied (run (elapse ms) (change (debouncedQuery s) s)) = applied s
  ∧ debouncedQuery (run (elapse ms) (change (debouncedQuery s) s)) = debouncedQuery s.
Proof.
  intros Hne. rewrite (change_back s Hne).
  rewrite elapse_idle by reflexivity. repeat split.
Qed.

(** "cat" is typed and deleted again 300 ms later: a second later, nothing has
    been applied. *)
Lemma change_back_cancels_witness :
  debouncedQuery typedCat ≠ requested typedCat
  ∧ timeout typedCat = Some (500%nat, catQuery)
  ∧ timeout (change (debouncedQuery typedCat) typedCat) = None
  ∧ applied (run (elapse 1000) (change (debouncedQuery typedCat) typedCat)) = []
  ∧ debouncedQuery (run (elapse 1000) (change (debouncedQuery typedCat) typedCat))
    = trendingQuery.
Proof.
  assert (H : debouncedQuery typedCat ≠ requested typedCat) by (vm_compute; discriminate).
  split; [exact H |]. split; [vm_compute; reflexivity |].
  exact (change_back_cancels typedCat 1000 H).
Defined.

Lemma queriesSeen_push (q0 q : GifsQuery) (log : list (nat * GifsQuery)) :
  q ≠ hd q0 (map snd log) →
  distinctNeighbours (map snd log ++ [q0]) →
  distinctNeighbours (q :: map snd log ++ [q0]).
Proof. destruct log as [| [t q'] rest]; cbn; auto. Qed.

(** What the controller keeps true of its log: the debounced query is the
    newest query seen, no query was seen twice in a row, and a pending timer is
    for the requested query, which is not the debounced one. *)
Lemma step_no_repeat (q0 : GifsQuery) (s : Controller) (e : Event) :
  debouncedQuery s = hd q0 (map snd (applied s))
  ∧ distinctNeighbours (queriesSeen q0 s)
  ∧ (∀ due q, timeout s = Some (due, q) → q ≠ debouncedQuery s ∧ q = requested s) →
  debouncedQuery (step s e) = hd q0 (map snd (applied (step s e)))
  ∧ distinctNeighbours (queriesSeen q0 (step s e))
  ∧ (∀ due q, timeout (step s e) = Some (due, q) →
       q ≠ debouncedQuery (step s e) ∧ q = requested (step s e)).
Proof.
  intros (Hhd & Hdn & Ht). unfold queriesSeen in *.
  destruct e as [q |]; cbn [step].
  - unfold change.
    destruct (bool_decide (q = requested s)); [split; [exact Hhd | split; [exact Hdn | exact Ht]] |].
    rewrite render_spec. cbn [debouncedQuery requested].
    destruct (decide (debouncedQuery s = q)) as [E | NE].
    + cbn. split; [exact Hhd | split; [exact Hdn | discriminate]].
    + destruct (String.eqb (searchQuery q) ""); cbn.
      * split; [reflexivity | split; [| discriminate]].
        apply queriesSeen_push; [congruence | exact Hdn].
      * split; [exact Hhd | split; [exact Hdn |]].
        intros ? ? [= _ <-]. split; [congruence | reflexivity].
  - unfold tick. cbn [timeout now].
    destruct (timeout s) as [[due q] |] eqn:E.
    + destruct (Ht due q eq_refl) as [Hne Hreq].
      destruct (due <=? S (now s))%nat.
      * rewrite render_spec.
        cbn [setDebouncedQuery clearTimeout debouncedQuery requested now timeout applied].
        rewrite decide_True by exact Hreq. cbn.
        split; [reflexivity | split; [| discriminate]].
        apply queriesSeen_push; [congruence | exact Hdn].
      * cbn. split; [exact Hhd | split; [exact Hdn |]].
        intros ? ? [= _ <-]. split; assumption.
    + cbn. split; [exact Hhd | split; [exact Hdn |]]. discriminate.
Qed.

(** X4. From the mount on, through every sequence of changes and ticks, the
    loader is never given the same query twice in a row: each query applied
    differs from the one applied before it, the first from the query the panel
    was mounted with. *)
Theorem no_query_applied_twice_in_a_row (q0 : GifsQuery) (evs : list Event) :
  distinctNeighbours (queriesSeen q0 (run evs (mount q0))).
Proof.
  enough (H : debouncedQuery (run evs (mount q0))
              = hd q0 (map snd (applied (run evs (mount q0))))
            ∧ distinctNeighbours (queriesSeen q0 (run evs (mount q0)))
            ∧ (∀ due q, timeout (run evs (mount q0)) = Some (due, q) →
                 q ≠ debouncedQuery (run evs (mount q0)) ∧ q = requested (run evs (mount q0))))
    by apply H.
  induction evs as [| e evs IH] using rev_ind.
  - cbn. split; [reflexivity | split; [exact I | discriminate]].
  - rewrite run_app. cbn [run fold_left]. apply step_no_repeat, IH.
Qed.

Lemma timeline_since_le (q0 : GifsQuery) (evs : list Event) :
  (since (timelineOf q0 evs) ≤ clock (timelineOf q0 evs))%nat.
Proof.
  induction evs as [| e evs IH] using rev_ind; [cbn; lia |].
  rewrite timelineOf_snoc. destruct e as [q |]; cbn.
  - destruct (bool_decide _); cbn; lia.
  - lia.
Qed.

(** X5. Half a second after the last change, whatever came before, the
    debounced query is the requested one and no timer is left: the loader
    always catches up with what the user asked for. *)
Theorem quiet_time_catches_up (q0 : GifsQuery) (evs : list Event) (ms : nat) :
  (500 ≤ ms)%nat →
  debouncedQuery (run (evs ++ elapse ms) (mount q0)) = current (timelineOf q0 evs)
  ∧ requested (run (evs ++ elapse ms) (mount q0)) = current (timelineOf q0 evs)
  ∧ timeout (run (evs ++ elapse ms) (mount q0)) = None.
Proof.
  intros Hms. rewrite run_app.
  destruct (run_settled q0 evs) as (Hnow & Hreq & Htimer).
  pose proof (timeline_since_le q0 evs) as Hsince.
  set (s := run evs (mount q0)) in *.
  destruct (timeout s) as [[due q] |] eqn:Et.
  - destruct Htimer as (Hq & _ & Hdue & Hlt).
    set (k := (due - now s - 1)%nat).
    replace ms with (k + (1 + (ms - k - 1)))%nat by lia.
    unfold elapse. rewrite !repeat_app. fold (elapse k) (elapse 1) (elapse (ms - k - 1)).
    rewrite !run_app.
    rewrite (elapse_waiting k due q s Et) by lia.
    rewrite run_tick.
    rewrite (tick_fires q); [| cbn; rewrite Et; do 2 f_equal; lia | cbn; congruence].
    rewrite elapse_idle by reflexivity. cbn. rewrite <- Hreq, <- Hq. repeat split.
  - rewrite elapse_idle by exact Et. cbn. rewrite Et, Htimer, Hreq. repeat split.
Qed.

(** After "cat", "cats" and a change of section in quick succession, 500 ms of
    quiet leave the last request applied. *)
Lemma quiet_time_catches_up_witness :
  debouncedQuery (run ([Change catQuery; Tick; Change catsQuery; Tick;
                        Change (mkQuery Love "cats")] ++ elapse 500) (mount trendingQuery))
    = mkQuery Love "cats"
  ∧ timeout (run ([Change catQuery; Tick; Change catsQuery; Tick;
                   Change (mkQuery Love "cats")] ++ elapse 500) (mount trendingQuery))
    = None.
Proof.
  destruct (quiet_time_catches_up trendingQuery
              [Change catQuery; Tick; Change catsQuery; Tick; Change (mkQuery Love "cats")]
              500 (le_n 500)) as (Hd & _ & Ht).
  split; [exact Hd | exact Ht].
Defined.

(** ** Pages and prefetching *)

(** X6. A page the loader resolves by itself, without a fetch, is the last
    one: [hasNextPage] is false for it, whatever the query, and so the prefetch
    effect stays quiet however far the view scrolls.  Recent gifs come in one
    page, however many there are. *)
Theorem resolved_page_is_last
    (recentGifs : list GifType.t) (q q' : GifsQuery)
    (prev : option GifsPaginated) (signal : AbortSignal) (page : GifsPaginated) :
  loader recentGifs q prev signal = Resolved page →
  gifs page = recentGifs
  ∧ hasNextPage q' (Some page) = false
  ∧ ∀ (lastIndex count : Z) (pending : bool),
      prefetchEffect lastIndex count (hasNextPage q' (Some page)) pending = false.
Proof.
  intros H.
  assert (Hpage : page = {| next := None; gifs := recentGifs |}).
  { destruct (decide (searchQuery q = "")) as [E | NE].
    - destruct q as [s t]; cbn in E; subst t. rewrite loader_browsing in H.
      destruct s; cbn in H; congruence.
    - rewrite loader_searching in H by exact NE. discriminate. }
  subst page. split; [reflexivity |]. split; [reflexivity |].
  intros lastIndex count pending. unfold prefetchEffect. cbn.
  rewrite !orb_true_r. reflexivity.
Qed.

Lemma resolved_page_is_last_witness :
  loader (repeat sampleGif 100) (mkQuery Recents "") None 1%positive
    = Resolved (mkPage None (repeat sampleGif 100))
  ∧ hasNextPage (mkQuery Recents "") (Some (mkPage None (repeat sampleGif 100))) = false
  ∧ prefetchEffect 99 100
      (hasNextPage (mkQuery Recents "") (Some (mkPage None (repeat sampleGif 100)))) false
    = false.
Proof.
  assert (H : loader (repeat sampleGif 100) (mkQuery Recents "") None 1%positive
              = Resolved (mkPage None (repeat sampleGif 100))) by reflexivity.
  split; [exact H |].
  destruct (resolved_page_is_last _ _ (mkQuery Recents "") _ _ _ H) as (_ & Hn & Hp).
  split; [exact Hn | apply Hp].
Defined.

(** X7. A list no longer than a first page (10 items) with more pages to come
    asks for the next page as soon as the visible range ends at index 1 or
    beyond and nothing is pending; a list of up to 9 items does so for every
    measured range. *)
Theorem first_page_prefetches (count endIndex : Z) :
  0 < count → count ≤ limitOf None → 0 ≤ endIndex →
  (1 ≤ endIndex ∨ count ≤ 9) →
  prefetchEffect endIndex count true false = true.
Proof.
  cbn [limitOf]. intros Hc Hl He Hor.
  apply prefetchEffect_true_iff. repeat split; lia.
Qed.

Lemma first_page_prefetches_witness :
  prefetchEffect 1 10 true false = true ∧ prefetchEffect 0 9 true false = true
  ∧ prefetchEffect 0 10 true false = false.
Proof.
  split; [| split].
  - apply first_page_prefetches; cbn; lia.
  - apply first_page_prefetches; cbn; lia.
  - reflexivity.
Defined.

(** ** More on the range extractor *)

(** X8. The panel's extractor returns the list of the virtualizer's own
    extractor with at most one index put in front and at most one put at the
    back: 0 in front exactly when the list lacks it, and [count - 1] at the
    back exactly when the list, with that 0, lacks it.  Nothing is dropped or
    reordered. *)
Theorem rangeExtractor_adds_only_ends
    (defaultRangeExtractor : Range → list Z) (count : Z) (range : Range) :
  ∃ front back,
    rangeExtractor defaultRangeExtractor count range
      = front ++ defaultRangeExtractor range ++ back
    ∧ ((front = [] ∧ In 0 (defaultRangeExtractor range))
       ∨ (front = [0] ∧ ¬ In 0 (defaultRangeExtractor range)))
    ∧ ((back = [] ∧ In (count - 1) (front ++ defaultRangeExtractor range))
       ∨ (back = [count - 1] ∧ ¬ In (count - 1) (front ++ defaultRangeExtractor range))).
Proof.
  unfold rangeExtractor. set (l0 := defaultRangeExtractor range).
  destruct (includes 0 l0) eqn:E0; cbn [negb].
  - exists []. apply includes_In in E0.
    destruct (includes (count - 1) l0) eqn:E1; cbn [negb].
    + exists []. apply includes_In in E1. rewrite app_nil_r. cbn. auto.
    + exists [count - 1]. cbn. repeat split; auto. right. split; [reflexivity |].
      intros H. apply includes_In in H. congruence.
  - exists [0].
    assert (H0 : ¬ In 0 l0) by (intros H; apply includes_In in H; congruence).
    destruct (includes (count - 1) (0 :: l0)) eqn:E1; cbn [negb].
    + exists []. apply includes_In in E1. rewrite app_nil_r. cbn [app]. auto.
    + exists [count - 1]. cbn [app]. repeat split; auto. right. split; [reflexivity |].
      intros H. apply includes_In in H. congruence.
Qed.

(** X9. For a list of at least one item: if the virtualizer's own extractor
    returns strictly ascending indexes of the list, so does the panel's.  In
    particular the panel's extractor introduces no duplicate and no index
    outside the list. *)
Theorem rangeExtractor_keeps_ascending
    (defaultRangeExtractor : Range → list Z) (count : Z) (range : Range) :
  1 ≤ count →
  ascendingWithin count (defaultRangeExtractor range) →
  ascendingWithin count (rangeExtractor defaultRangeExtractor count range)
  ∧ NoDup (rangeExtractor defaultRangeExtractor count range).
Proof. exact (rangeExtractor_ascending_nodup defaultRangeExtractor count range). Qed.

(** The window 22..39 of 40 items gets 0 in front and nothing at the back. *)
Lemma rangeExtractor_keeps_ascending_witness :
  rangeExtractor plainRangeExtractor 40
      {| startIndex := 30; endIndex := 37; overscan := 8; count := 40 |}
    = 0 :: map (λ i, 22 + Z.of_nat i) (seq 0 18)
  ∧ NoDup (rangeExtractor plainRangeExtractor 40
             {| startIndex := 30; endIndex := 37; overscan := 8; count := 40 |}).
Proof.
  split; [vm_compute; reflexivity |].
  apply (rangeExtractor_keeps_ascending plainRangeExtractor 40); [lia |].
  split.
  - vm_compute. repeat (constructor; [| repeat (constructor; [reflexivity |]); constructor]).
    constructor.
  - vm_compute. repeat (constructor; [split; discriminate |]). constructor.
Defined.

(** ** Item keys *)

Lemma getItemKey_ok (items : list GifType.t) :
  (∀ index : Z,
     is_Some (getItemKey items index) ↔ 0 ≤ index < Z.of_nat (length items))
  ∧ (NoDup (map GifType.id items) →
     ∀ (i j : Z) (k : string),
       getItemKey items i = Some k → getItemKey items j = Some k → i = j).
Proof.
  split.
  - intros index. unfold getItemKey.
    destruct (Z.ltb_spec index 0) as [Hneg | Hpos].
    + split; [intros [? [=]] | lia].
    + rewrite <- list_lookup_fmap, lookup_lt_is_Some, length_fmap. lia.
  - intros Hnd i j k. unfold getItemKey.
    destruct (Z.ltb_spec i 0); [discriminate |].
    destruct (Z.ltb_spec j 0); [discriminate |].
    rewrite <- !list_lookup_fmap. intros Hi Hj.
    pose proof (NoDup_lookup _ _ _ _ Hnd Hi Hj). lia.
Qed.

(** X10. [getItemKey] has a key exactly for the indexes of the list, 0 to
    [count - 1]; anywhere else reading the id throws.  When the ids of the
    items are distinct, so are the keys of distinct indexes. *)
Theorem getItemKey_defined_and_injective (items : list GifType.t) :
  (∀ index : Z,
     is_Some (getItemKey items index) ↔ 0 ≤ index < Z.of_nat (length items))
  ∧ (NoDup (map GifType.id items) →
     ∀ (i j : Z) (k : string),
       getItemKey items i = Some k → getItemKey items j = Some k → i = j).
Proof. exact (getItemKey_ok items). Qed.

Lemma getItemKey_defined_and_injective_witness :
  getItemKey [gifNumber 1; gifNumber 2; gifNumber 3] 2 = Some "gif-3"
  ∧ getItemKey [gifNumber 1; gifNumber 2; gifNumber 3] 3 = None
  ∧ getItemKey [gifNumber 1; gifNumber 2; gifNumber 3] (-1) = None
  ∧ (∀ i, getItemKey [gifNumber 1; gifNumber 2; gifNumber 3] i = Some "gif-3" → i = 2).
Proof.
  split; [vm_compute; reflexivity |]. split; [reflexivity |]. split; [reflexivity |].
  intros i Hi.
  apply (proj2 (getItemKey_defined_and_injective [gifNumber 1; gifNumber 2; gifNumber 3]))
    with (k := "gif-3").
  - apply (bool_decide_unpack _). vm_compute. exact I.
  - exact Hi.
  - vm_compute. reflexivity.
Defined.

(** ** The caches, as items and the lightbox use them *)

(** X11. A media object that has its own entry in the weak map keeps reading
    that entry after a write through any other object, the same url or not, and
    whether that write goes through or throws: the read gives the old blob and
    leaves both caches as the write left them. *)
Theorem own_entry_shadows_later_writes
    (c : Caches) (writer reader : Obj GifMediaType.t) (written kept : Blob) :
  addr writer ≠ addr reader →
  FunGifBlobLiveCache c !! addr reader = Some kept →
  readGifMediaFromCache reader (cacheStep c (Save writer written))
    = (Some kept, cacheStep c (Save writer written)).
Proof.
  intros Hne Hkept. apply readGifMediaFromCache_live.
  rewrite (cacheStep_keeps_live (addr reader) (Save writer written) c Hne). exact Hkept.
Qed.

(** Two objects for the url a: the second write, of another blob, does not
    change what the first object reads, while a third object reads the new
    blob. *)
Lemma own_entry_shadows_later_writes_witness :
  (readGifMediaFromCache (mediaAt 1 "a")
     (runCacheOps [Save (mediaAt 1 "a") (blobOfSize 100); Save (mediaAt 2 "a") (blobOfSize 200)]
        initialCaches)).1
    = Some (blobOfSize 100)
  ∧ (readGifMediaFromCache (mediaAt 3 "a")
       (runCacheOps [Save (mediaAt 1 "a") (blobOfSize 100); Save (mediaAt 2 "a") (blobOfSize 200)]
          initialCaches)).1
    = Some (blobOfSize 200).
Proof.
  split; [| vm_compute; reflexivity].
  change (runCacheOps [Save (mediaAt 1 "a") (blobOfSize 100);
                       Save (mediaAt 2 "a") (blobOfSize 200)] initialCaches)
    with (cacheStep (cacheStep initialCaches (Save (mediaAt 1 "a") (blobOfSize 100)))
            (Save (mediaAt 2 "a") (blobOfSize 200))).
  rewrite (own_entry_shadows_later_writes
             (cacheStep initialCaches (Save (mediaAt 1 "a") (blobOfSize 100)))
             (mediaAt 2 "a") (mediaAt 1 "a") (blobOfSize 200) (blobOfSize 100)).
  - reflexivity.
  - discriminate.
  - vm_compute. reflexivity.
Defined.

(** A download that brings bytes, at least one, writes the caches and sets
    [src]. *)
Lemma downloadEffect_fulfilled_bytes (isAbortError : Error → bool) (toLogFormat : Error → string)
    (gif : GifType.t) (bytes : Uint8Array) (w : ItemWorld) :
  LRUCache.options (FunGifBlobCache (caches w)) = cacheOptions →
  (0 < byteLength bytes)%N →
  src w = None →
  downloadEffect isAbortError toLogFormat gif (Fulfilled bytes) w =
    inl {| caches :=
             {| FunGifBlobCache :=
                  LRUCache.store (GifMediaType.url (val (GifType.previewMedia gif)))
                    (mkBlob [bytes]) (FunGifBlobCache (caches w));
                FunGifBlobLiveCache :=
                  <[addr (GifType.previewMedia gif) := mkBlob [bytes]]>
                    (FunGifBlobLiveCache (caches w)) |};
           errorLog := errorLog w;
           src := Some (createObjectURL (mkBlob [bytes])) |}.
Proof.
  intros Ho Hpos Hs. unfold downloadEffect, download, downloadTry. rewrite Hs.
  rewrite saveGifMediaToCache_bytes; [reflexivity | exact Ho | cbn; lia].
Qed.


(** X12. Once an item has downloaded its preview, of at least one byte, an
    item mounted later for the same gif object starts with that preview,
    through any steps in between that leave the object's weak-map entry alone,
    and its download effect then does nothing, whatever a fetch would give.  An
    item mounted for another object with the same url, unknown to the weak map,
    starts with the preview too, provided the bytes fit the bound of the
    byte-bounded cache. *)
Theorem downloaded_preview_is_reused
    (isAbortError : Error → bool) (toLogFormat : Error → string)
    (gif : GifType.t) (bytes : Uint8Array) (w w1 : ItemWorld) :
  LRUCache.options (FunGifBlobCache (caches w)) = cacheOptions →
  (0 < byteLength bytes)%N →
  src w = None →
  downloadEffect isAbortError toLogFormat gif (Fulfilled bytes) w = inl w1 →
  (∀ (ops : list CacheOp) (log : list (string * string)),
     Forall (keepsLive (addr (GifType.previewMedia gif))) ops →
     src (mountItem gif (runCacheOps ops (caches w1)) log)
       = Some (createObjectURL (mkBlob [bytes]))
     ∧ ∀ outcome,
         downloadEffect isAbortError toLogFormat gif outcome
             (mountItem gif (runCacheOps ops (caches w1)) log)
           = inl (mountItem gif (runCacheOps ops (caches w1)) log))
  ∧ (∀ (again : GifType.t) (log : list (string * string)),
       GifMediaType.url (val (GifType.previewMedia again))
         = GifMediaType.url (val (GifType.previewMedia gif)) →
       FunGifBlobLiveCache (caches w1) !! addr (GifType.previewMedia again) = None →
       (byteLength bytes ≤ MAX_CACHE_SIZE)%N →
       src (mountItem again (caches w1) log) = Some (createObjectURL (mkBlob [bytes]))).
Proof.
  intros Ho Hpos Hs Hd.
  rewrite (downloadEffect_fulfilled_bytes _ _ _ _ _ Ho Hpos Hs) in Hd.
  injection Hd as <-. cbn [caches]. split.
  - intros ops log Hall.
    match goal with |- src (mountItem gif (runCacheOps ops ?c1) log) = _ ∧ _ =>
      assert (Hsrc : src (mountItem gif (runCacheOps ops c1) log)
                     = Some (createObjectURL (mkBlob [bytes])))
    end.
    { unfold mountItem. cbn [src].
      rewrite (readGifMediaFromCache_live _ _ (mkBlob [bytes])); [reflexivity |].
      rewrite (runCacheOps_keeps_live _ _ _ Hall). cbn. apply lookup_insert_eq. }
    split; [exact Hsrc |].
    intros outcome. unfold downloadEffect. rewrite Hsrc. reflexivity.
  - intros again log Hurl Hmiss Hsz. unfold mountItem. cbn [src].
    rewrite (readGifMediaFromCache_fallback _ _ Hmiss). cbn [fst].
    rewrite lru_get_peek, Hurl. cbn [FunGifBlobCache].
    rewrite lru_store_peek; [reflexivity |].
    rewrite Ho. cbn. lia.
Qed.

(** Gif 1 is downloaded; bigger previews of gifs 2 and 3 follow.  A later mount
    of gif 1 starts with its preview. *)
Lemma downloaded_preview_is_reused_witness :
  src (mountItem (gifNumber 1)
         (runCacheOps [Save (GifType.previewMedia (gifNumber 1)) (mkBlob [mkBytes 2048 7]);
                       Save (GifType.previewMedia (gifNumber 2)) (blobOfSize (30 * MB));
                       Save (GifType.previewMedia (gifNumber 3)) (blobOfSize (30 * MB))]
            initialCaches) [])
    = Some (createObjectURL (mkBlob [mkBytes 2048 7])).
Proof.
  refine (proj1 (proj1 (downloaded_preview_is_reused isAbortByName messageOf (gifNumber 1)
                   (mkBytes 2048 7) freshItemWorld _ eq_refl eq_refl eq_refl eq_refl)
                   [Save (GifType.previewMedia (gifNumber 2)) (blobOfSize (30 * MB));
                    Save (GifType.previewMedia (gifNumber 3)) (blobOfSize (30 * MB))] [] _)).
  repeat constructor; cbn; discriminate.
Defined.

(** ** The lightbox *)

Lemma find_by_id_absent (items : list GifType.t) (k : string) :
  ¬ In k (map GifType.id items) →
  List.find (λ item, String.eqb (GifType.id item) k) items = None.
Proof.
  induction items as [| g items IH]; [reflexivity |]. cbn. intros H.
  destruct (String.eqb_spec (GifType.id g) k) as [E | NE]; [exfalso; auto |].
  apply IH. auto.
Qed.

Lemma find_by_id_present (items : list GifType.t) (gif : GifType.t) :
  NoDup (map GifType.id items) → In gif items →
  List.find (λ item, String.eqb (GifType.id item) (GifType.id gif)) items = Some gif.
Proof.
  induction items as [| g items IH]; [intros _ [] |]. cbn [map List.find].
  intros Hnd Hin. apply NoDup_cons in Hnd as [Hnotin Hnd].
  destruct (String.eqb_spec (GifType.id g) (GifType.id gif)) as [E | NE].
  - destruct Hin as [-> | Hin]; [reflexivity |]. exfalso. apply Hnotin. rewrite E.
    apply list_elem_of_In, in_map, Hin.
  - destruct Hin as [-> | Hin]; [congruence |]. apply IH; assumption.
Qed.

Lemma gifsLightbox_of_item (items : list GifType.t) (c : Caches) (gif : GifType.t) :
  NoDup (map GifType.id items) → In gif items →
  gifsLightbox items (Some (GifType.id gif)) c =
    match (readGifMediaFromCache (GifType.previewMedia gif) c).1 with
    | Some blob =>
        (LightboxShown gif (createObjectURL blob),
         (readGifMediaFromCache (GifType.previewMedia gif) c).2)
    | None =>
        (LightboxThrows "Missing media",
         (readGifMediaFromCache (GifType.previewMedia gif) c).2)
    end.
Proof.
  intros Hnd Hin. unfold gifsLightbox. rewrite find_by_id_present by assumption.
  destruct (readGifMediaFromCache (GifType.previewMedia gif) c).1; reflexivity.
Qed.

(** X13. The lightbox for a key that is the id of no item throws
    [Must have gif for "key"].  When ids are distinct, the lightbox for the id
    of an item is about that item: it shows the item's preview out of the
    caches, read as an item reads it, and throws [Missing media] when neither
    cache has it. *)
Theorem lightbox_outcomes (items : list GifType.t) (c : Caches) :
  (∀ k : string,
     ¬ In k (map GifType.id items) →
     gifsLightbox items (Some k) c = (LightboxThrows ("Must have gif for " +:+ quoted k), c))
  ∧ (∀ gif : GifType.t,
       NoDup (map GifType.id items) → In gif items →
       gifsLightbox items (Some (GifType.id gif)) c =
         match (readGifMediaFromCache (GifType.previewMedia gif) c).1 with
         | Some blob =>
             (LightboxShown gif (createObjectURL blob),
              (readGifMediaFromCache (GifType.previewMedia gif) c).2)
         | None =>
             (LightboxThrows "Missing media",
              (readGifMediaFromCache (GifType.previewMedia gif) c).2)
         end).
Proof.
  split.
  - intros k Hk. unfold gifsLightbox. rewrite find_by_id_absent by exact Hk. reflexivity.
  - intros gif Hnd Hin. apply gifsLightbox_of_item; assumption.
Qed.

Lemma lightbox_outcomes_witness :
  gifsLightbox [gifNumber 1; gifNumber 2] (Some "gif-9") initialCaches
    = (LightboxThrows ("Must have gif for " +:+ quoted "gif-9"), initialCaches)
  ∧ (gifsLightbox [gifNumber 1; gifNumber 2] (Some "gif-2") initialCaches).1
    = LightboxThrows "Missing media".
Proof.
  split.
  - apply (proj1 (lightbox_outcomes [gifNumber 1; gifNumber 2] initialCaches) "gif-9").
    vm_compute. intuition discriminate.
  - change "gif-2" with (GifType.id (gifNumber 2)).
    rewrite (proj2 (lightbox_outcomes [gifNumber 1; gifNumber 2] initialCaches) (gifNumber 2)).
    + vm_compute. reflexivity.
    + apply (bool_decide_unpack _). vm_compute. exact I.
    + right. left. reflexivity.
Defined.




(** ** The object URLs of an item *)

Lemma revokeObjectURL_head (u : ObjectURL) (urls : list ObjectURL) :
  revokeObjectURL u (u :: urls) = urls.
Proof. cbn. rewrite decide_True by reflexivity. reflexivity. Qed.

(** X15. An item gives back every object URL it makes.  Mounted over any
    caches, and unmounted before its fetch settles or after it has settled in
    any way, it leaves the browser's object URLs as they were before the mount;
    and for as long as it is mounted, the URL it shows is one the browser still
    holds. *)
Theorem item_releases_its_object_urls
    (isAbortError : Error → bool) (toLogFormat : Error → string)
    (gif : GifType.t) (c : Caches) (log : list (string * string)) (urls : list ObjectURL) :
  unmountItem (mountItemIn gif c log urls) = urls
  ∧ (∀ outcome,
       unmountItem (settleFetch isAbortError toLogFormat gif outcome
                      (mountItemIn gif c log urls)) = urls)
  ∧ (∀ u, src (world (mountItemIn gif c log urls)) = Some u →
          In u (objectURLs (mountItemIn gif c log urls)))
  ∧ (∀ outcome u,
       src (world (settleFetch isAbortError toLogFormat gif outcome
                     (mountItemIn gif c log urls))) = Some u →
       In u (objectURLs (settleFetch isAbortError toLogFormat gif outcome
                           (mountItemIn gif c log urls)))).
Proof.
  unfold mountItemIn, unmountItem, settleFetch. cbn [world objectURLs fetching].
  remember (mountItem gif c log) as w eqn:Hw. clear Hw.
  destruct (src w) as [u0 |] eqn:Hs.
  - rewrite bool_decide_eq_false_2 by discriminate. cbn [world objectURLs].
    rewrite Hs. cbn [revokeSrc]. rewrite revokeObjectURL_head.
    split; [reflexivity |]. split; [reflexivity |].
    split; [intros u [= <-]; left; reflexivity |].
    intros _ u [= <-]. left. reflexivity.
  - rewrite bool_decide_eq_true_2 by reflexivity. cbn [world objectURLs revokeSrc].
    split; [reflexivity |].
    assert (Hboth : ∀ outcome,
      let m := match download isAbortError toLogFormat gif outcome w with
               | inl w' =>
                   {| world := w';
                      objectURLs :=
                        match downloadTry gif outcome w with
                        | inl tried =>
                            match src tried with
                            | Some u => u :: urls
                            | None => urls
                            end
                        | inr _ => urls
                        end;
                      fetching := false |}
               | inr _ => {| world := w; objectURLs := urls; fetching := true |}
               end in
      revokeSrc (src (world m)) (objectURLs m) = urls
      ∧ ∀ u, src (world m) = Some u → In u (objectURLs m)).
    { intros [bytes | error]; unfold download, downloadTry.
      - destruct (saveGifMediaToCache_cases (GifType.previewMedia gif) (mkBlob [bytes]) (caches w))
          as [-> | ->].
        + destruct (isAbortError LRUCache.invalidSize); cbn; rewrite Hs;
            (split; [reflexivity | discriminate]).
        + cbn. rewrite decide_True by reflexivity.
          split; [reflexivity | intros u [= <-]; left; reflexivity].
      - destruct (isAbortError error); cbn; rewrite Hs; (split; [reflexivity | discriminate]). }
    split; [intros outcome; apply (Hboth outcome) |].
    split; [intros u [=] |].
    intros outcome. apply (Hboth outcome).
Qed.

(** An item over empty caches gets its bytes and is unmounted: the one URL it
    made is gone again; meanwhile it was held. *)
Lemma item_releases_its_object_urls_witness :
  objectURLs (settleFetch isAbortByName messageOf sampleGif (Fulfilled (mkBytes 2048 7))
                (mountItemIn sampleGif initialCaches [] []))
    = [createObjectURL (mkBlob [mkBytes 2048 7])]
  ∧ unmountItem (settleFetch isAbortByName messageOf sampleGif (Fulfilled (mkBytes 2048 7))
                   (mountItemIn sampleGif initialCaches [] [])) = [].
Proof.
  split; [vm_compute; reflexivity |].
  exact (proj1 (proj2 (item_releases_its_object_urls isAbortByName messageOf sampleGif
                         initialCaches [] [])) (Fulfilled (mkBytes 2048 7))).
Defined.

(** ** What the sub-navigation shows *)

(** X16. The sub-navigation is hidden exactly when both the debounced query
    and the query on screen are search results.  A new search that is still
    waiting for its timer changes nothing of what the sub-navigation shows:
    for the first 499 ms the visible section is what it was. *)
Theorem sub_nav_waits_for_the_search :
  (∀ debounced queryStateQuery : GifsQuery,
     subNavShown debounced queryStateQuery = false
     ↔ selectedSection debounced = SearchResults
       ∧ selectedSection queryStateQuery = SearchResults)
  ∧ (∀ (s : Controller) (q queryStateQuery : GifsQuery) (ms : nat),
       searchQuery q ≠ "" → q ≠ requested s → q ≠ debouncedQuery s → (ms < 500)%nat →
       visibleSelectedSection (debouncedQuery (run (elapse ms) (change q s))) queryStateQuery
         = visibleSelectedSection (debouncedQuery s) queryStateQuery).
Proof.
  split.
  - intros d qsq. unfold subNavShown, visibleSelectedSection.
    rewrite negb_false_iff, bool_decide_eq_true.
    destruct (decide (selectedSection d = SearchResults)) as [E | NE].
    + rewrite bool_decide_eq_true_2 by exact E. tauto.
    + rewrite bool_decide_eq_false_2 by exact NE. tauto.
  - intros s q qsq ms Ht Hr Hd Hms.
    rewrite (elapse_after_change q s ms Ht Hr Hd).
    apply Nat.ltb_lt in Hms. rewrite Hms. reflexivity.
Qed.

(** Trending is on screen and "cat" was typed 300 ms ago: the sub-navigation is
    still shown, on trending. *)
Lemma sub_nav_waits_for_the_search_witness :
  requested typedCat = catQuery
  ∧ visibleSelectedSection (debouncedQuery typedCat) trendingQuery = Trending
  ∧ subNavShown (debouncedQuery typedCat) trendingQuery = true
  ∧ visibleSelectedSection
      (debouncedQuery (run (elapse 499) (change catsQuery typedCat))) trendingQuery
    = visibleSelectedSection (debouncedQuery typedCat) trendingQuery.
Proof.
  split; [vm_compute; reflexivity |]. split; [vm_compute; reflexivity |].
  split; [vm_compute; reflexivity |].
  apply (proj2 sub_nav_waits_for_the_search typedCat catsQuery trendingQuery 499%nat).
  - discriminate.
  - vm_compute. discriminate.
  - vm_compute. discriminate.
  - lia.
Defined.

(** ** Never two tab stops *)

Lemma keyedBy_distinct_keys (items : list GifType.t) (virtualItems : list VirtualItem) :
  NoDup (map GifType.id items) →
  keyedBy items virtualItems →
  NoDup (map index virtualItems) →
  NoDup (map key virtualItems).
Proof.
  intros Hids. induction virtualItems as [| a l IH]; intros Hk Hnd; [constructor |].
  inversion Hk as [| ? ? Ha Hl]; subst. cbn in Hnd. apply NoDup_cons in Hnd as [Hnotin Hnd].
  cbn. apply NoDup_cons. split; [| apply IH; assumption].
  intros Hin. apply list_elem_of_fmap in Hin as (b & Hkey & Hb).
  apply Hnotin. apply list_elem_of_fmap. exists b. split; [| exact Hb].
  unfold keyedBy in Hl. rewrite Forall_forall in Hl. specialize (Hl b Hb).
  rewrite <- Hkey in Hl.
  exact (proj2 (getItemKey_ok items) Hids _ _ _ Ha Hl).
Qed.

(** X17. When the ids of the items are distinct and the virtualizer renders
    each index at most once, keyed by [getItemKey], no rendered state has two
    tab stops, whichever key is selected or none. *)
Theorem never_two_tab_stops
    (items : list GifType.t) (virtualItems : list VirtualItem)
    (selectedItemKey : option string) :
  NoDup (map GifType.id items) →
  keyedBy items virtualItems →
  NoDup (map index virtualItems) →
  (length (tabbableItems selectedItemKey virtualItems) ≤ 1)%nat
  ∧ (length (List.filter (Z.eqb 0) (renderedTabIndexes selectedItemKey virtualItems)) ≤ 1)%nat.
Proof.
  intros Hids Hk Hnd.
  enough (H : (length (tabbableItems selectedItemKey virtualItems) ≤ 1)%nat).
  { split; [exact H | rewrite tab_stops_are_tabbable; exact H]. }
  unfold tabbableItems. destruct selectedItemKey as [k |].
  - pose proof (keyedBy_distinct_keys items virtualItems Hids Hk Hnd) as Hkeys.
    destruct (filter_by_unique_value key (isTabbable (Some k)) k virtualItems
                (isTabbable_selected k) Hkeys) as [H1 H0].
    destruct (decide (k ∈ map key virtualItems)) as [Hin | Hout].
    + rewrite (H1 Hin). lia.
    + rewrite (H0 Hout). cbn. lia.
  - destruct (filter_by_unique_value index (isTabbable None) 0 virtualItems
                isTabbable_initial Hnd) as [H1 H0].
    destruct (decide (0 ∈ map index virtualItems)) as [Hin | Hout].
    + rewrite (H1 Hin). lia.
    + rewrite (H0 Hout). cbn. lia.
Qed.

(** Three gifs, all rendered, the second one selected: one tab stop. *)
Lemma never_two_tab_stops_witness :
  tabbableItems (Some "gif-2")
      [mkVirtualItem 0 "gif-1" 0 124 0; mkVirtualItem 1 "gif-2" 0 124 1;
       mkVirtualItem 2 "gif-3" 124 124 0]
    = [mkVirtualItem 1 "gif-2" 0 124 1]
  ∧ (length (tabbableItems (Some "gif-2")
               [mkVirtualItem 0 "gif-1" 0 124 0; mkVirtualItem 1 "gif-2" 0 124 1;
                mkVirtualItem 2 "gif-3" 124 124 0]) ≤ 1)%nat.
Proof.
  split; [vm_compute; reflexivity |].
  apply (never_two_tab_stops [gifNumber 1; gifNumber 2; gifNumber 3]).
  - apply (bool_decide_unpack _). vm_compute. exact I.
  - repeat (apply List.Forall_cons; [vm_compute; reflexivity |]). apply List.Forall_nil.
  - apply (bool_decide_unpack _). vm_compute. exact I.
Defined.
